(** * PSoC 6 simultaneous-sampling SAR ADC example: a model of [main.c]

  The firmware triggers two SAR ADC units from one timer, waits until both
  end-of-scan interrupts have been seen, converts the two raw counts to
  volts, multiplies them, writes the scaled product to the CTDAC and prints
  the two voltages on the debug UART.

  Definitions, in the order of the source:
  - [F32]: the arithmetic of [float32_t] (IEEE-754 binary32, taken from the
    parameterised specification in [SpecFloat]) and the C conversions
    between [int] and [float32_t];
  - [Stdio]: the one [printf] directive the source uses, [%.2f];
  - [Pdl]: what [main.c] takes from the peripheral driver library;
  - the firmware proper: the two flags, the two interrupt handlers and the
    body of [main]'s endless loop as a labelled transition system whose
    labels are the line numbers of [main.c], interleaved with interrupts.

  Then the properties: the handlers and the gate, the telemetry line, the
  mapping of counts to volts, and the code handed to the CTDAC, whose
  range rests on a bound on rounding in binary32. *)

From Stdlib Require Import ZArith Bool List String Ascii Lia QArith Qround.
From Stdlib Require Import Floats.SpecFloat.
Import ListNotations.

Open Scope Z_scope.

(* ================================================================= *)
(** ** [float32_t] *)

Module F32.

(** binary32: 24 bits of precision, infinities at exponent 128. *)
Definition prec : Z := 24.
Definition emax : Z := 128.

Definition float32 : Type := spec_float.

Definition valid (x : float32) : bool := valid_binary prec emax x.

Definition is_finite (x : float32) : bool :=
  match x with
  | S754_zero _ | S754_finite _ _ _ => true
  | S754_infinity _ | S754_nan => false
  end.

(** [a * b] on two [float32_t] operands, round to nearest even. *)
Definition mul (a b : float32) : float32 := SFmul prec emax a b.

(** [a / b] on two [float32_t] operands. *)
Definition div (a b : float32) : float32 := SFdiv prec emax a b.

(** [a <= b]; false as soon as one side is a NaN. *)
Definition leb (a b : float32) : bool := SFleb a b.

(** The conversion [(float32_t) z] of an [int]. *)
Definition of_int (z : Z) : float32 := binary_normalize prec emax z 0 false.

Definition INT_MIN : Z := -2147483648.
Definition INT_MAX : Z := 2147483647.

(** The conversion [(int) x]: the fractional part is discarded.  The C
    standard leaves the conversion undefined when the integral part does
    not fit an [int], and for infinities and NaNs: [None]. *)
Definition to_int (x : float32) : option Z :=
  match x with
  | S754_zero _ => Some 0
  | S754_finite s m e =>
      let a := Z.shiftl (Zpos m) e in
      let v := if s then - a else a in
      if (INT_MIN <=? v) && (v <=? INT_MAX) then Some v else None
  | S754_infinity _ | S754_nan => None
  end.

(** The rational number a [float32_t] stands for (0 for the values that
    stand for none). *)
Definition to_Q (x : float32) : Q :=
  match x with
  | S754_finite s m e =>
      let n := if s then Zneg m else Zpos m in
      match e with
      | Zneg p => Qmake n (2 ^ p)%positive
      | _ => inject_Z (n * 2 ^ e)
      end
  | _ => 0%Q
  end.

Definition zero : float32 := S754_zero false.

End F32.

Definition float32 : Type := F32.float32.

(* ================================================================= *)
(** ** The [%.2f] conversion of [printf] *)

Module Stdio.

Definition TAB : ascii := ascii_of_nat 9.
Definition CR : ascii := ascii_of_nat 13.
Definition LF : ascii := ascii_of_nat 10.

(** The decimal digit [d mod 10] as a character. *)
Definition digit (d : Z) : ascii := ascii_of_nat (48 + Z.to_nat (d mod 10)).

Definition is_digit (c : ascii) : bool :=
  (48 <=? nat_of_ascii c)%nat && (nat_of_ascii c <=? 57)%nat.

Fixpoint all_digits (s : string) : bool :=
  match s with
  | EmptyString => true
  | String c s' => is_digit c && all_digits s'
  end.

Fixpoint decimal_aux (fuel : nat) (n : Z) (acc : string) : string :=
  match fuel with
  | O => acc
  | S fuel' =>
      let acc' := String (digit n) acc in
      if n <? 10 then acc' else decimal_aux fuel' (n / 10) acc'
  end.

(** A non-negative integer in decimal, no leading zeros. *)
Definition decimal (n : Z) : string :=
  decimal_aux (S (Z.to_nat (Z.log2 n))) n EmptyString.

(** [n / d] rounded to the nearest integer, ties to even. *)
Definition round_half_even (n d : Z) : Z :=
  let q := n / d in
  match (2 * (n mod d) ?= d) with
  | Lt => q
  | Gt => q + 1
  | Eq => if Z.even q then q else q + 1
  end.

(** The magnitude [m * 2^e] in hundredths, correctly rounded. *)
Definition hundredths (m : positive) (e : Z) : Z :=
  match e with
  | Zneg p => round_half_even (100 * Zpos m) (2 ^ Zpos p)
  | _ => 100 * Zpos m * 2 ^ e
  end.

Definition sign (s : bool) : string := if s then "-" else EmptyString.

(** [%.2f] applied to a [float32_t] argument (promoted to [double] by the
    call, which changes no value). *)
Definition fmt_2f (x : float32) : string :=
  match x with
  | S754_nan => "nan"
  | S754_infinity s => sign s ++ "inf"
  | S754_zero s => sign s ++ "0.00"
  | S754_finite s m e =>
      let h := hundredths m e in
      sign s ++ decimal (h / 100)
        ++ String "." (String (digit (h / 10)) (String (digit h) EmptyString))
  end.

(** Where the scanner of the format string stands inside a directive. *)
Inductive scan := Text | Pct | PctDot | PctDot2.

(** [printf fmt args] for format strings whose only directive is [%.2f];
    the characters of any other directive are copied as they are. *)
Fixpoint printf_from (st : scan) (fmt : string) (args : list float32) : string :=
  match fmt with
  | EmptyString =>
      match st with
      | Text => EmptyString
      | Pct => "%"
      | PctDot => "%."
      | PctDot2 => "%.2"
      end
  | String c rest =>
      match st with
      | Text =>
          if Ascii.eqb c "%" then printf_from Pct rest args
          else String c (printf_from Text rest args)
      | Pct =>
          if Ascii.eqb c "." then printf_from PctDot rest args
          else String "%" (String c (printf_from Text rest args))
      | PctDot =>
          if Ascii.eqb c "2" then printf_from PctDot2 rest args
          else String "%" (String "." (String c (printf_from Text rest args)))
      | PctDot2 =>
          if Ascii.eqb c "f" then
            match args with
            | a :: args' => fmt_2f a ++ printf_from Text rest args'
            | [] => printf_from Text rest []
            end
          else
            String "%" (String "." (String "2"
              (String c (printf_from Text rest args))))
      end
  end.

Definition printf (fmt : string) (args : list float32) : string :=
  printf_from Text fmt args.

(** The shape [-?[0-9]+\.[0-9][0-9]] of a number printed with two
    decimals. *)
Definition two_digits (s : string) : bool :=
  match s with
  | String a (String b EmptyString) => is_digit a && is_digit b
  | _ => false
  end.

Fixpoint digits_point_two (seen : bool) (s : string) : bool :=
  match s with
  | EmptyString => false
  | String c r =>
      if is_digit c then digits_point_two true r
      else if Ascii.eqb c "." then seen && two_digits r
      else false
  end.

Definition is_fixed2 (s : string) : bool :=
  match s with
  | String c r =>
      if Ascii.eqb c "-" then digits_point_two false r
      else digits_point_two false s
  | EmptyString => false
  end.

End Stdio.

(* ================================================================= *)
(** ** What the firmware takes from the peripheral driver library *)

Inductive sar_unit := SAR0 | SAR1.

(** [main.c] includes [cy_pdl.h]; the interrupt masks and the conversion of
    counts to volts are declared there and are parameters here.  The one
    fact used about the masks is that the end-of-scan mask has a bit set. *)
Class Pdl := {
  CY_SAR_INTR_EOS : Z;
  CY_SAR_INTR : Z;
  Cy_SAR_CountsTo_Volts : sar_unit -> Z -> Z -> float32;
  CY_SAR_INTR_EOS_set : CY_SAR_INTR_EOS <> 0
}.

(* ================================================================= *)
(** ** Macros and the Derived-Output Computer (lines 61, 179-181) *)

Definition SCALING_FACTOR : Z := 372.

(** "The values to be set in CTDAC next value register is from 0 to 4095". *)
Definition deviceMaxCode : Z := 4095.

(** [(int)(product_result*SCALING_FACTOR)]: the macro is an [int] and is
    converted to [float32_t] for the multiplication. *)
Definition scaled_code (product_result : float32) : option Z :=
  F32.to_int (F32.mul product_result (F32.of_int SCALING_FACTOR)).

(** Lines 179 and 181 together: the argument handed to
    [Cy_CTDAC_SetValue] for the two voltages. *)
Definition compute (resultV_0 resultV_1 : float32) : option Z :=
  scaled_code (F32.mul resultV_0 resultV_1).

(** The integer part of a rational number. *)
Definition Qtrunc (q : Q) : Z := Z.quot (Qnum q) (Zpos (Qden q)).

Definition in_int_range (z : Z) : bool :=
  (F32.INT_MIN <=? z) && (z <=? F32.INT_MAX).

(** [product_result*SCALING_FACTOR] before the conversion to [int]. *)
Definition scaled_product (resultV_0 resultV_1 : float32) : float32 :=
  F32.mul (F32.mul resultV_0 resultV_1) (F32.of_int SCALING_FACTOR).

(** The nearest integer, ties away from zero: C's [round]. *)
Definition round_half_away (q : Q) : Z :=
  if Qle_bool 0 q then Qfloor (q + (1 # 2))%Q
  else - Qfloor (- q + (1 # 2))%Q.

(** The Derived-Output Computer as section 4.5 words it:
    [scaledCode = round(product * scaleFactor)], on the numbers the two
    voltages stand for. *)
Definition compute_rounded (physical0 physical1 : float32) : Z :=
  round_half_away (F32.to_Q physical0 * F32.to_Q physical1 * inject_Z SCALING_FACTOR)%Q.

(** The same with the clamp of section 4.5. *)
Definition compute_clamped (physical0 physical1 : float32) : Z :=
  Z.max 0 (Z.min deviceMaxCode (compute_rounded physical0 physical1)).

(** A [float32_t] that is a zero, or positive with exponent at least [lo]
    and at most [K * 2^eb] (both sides scaled by [2^512], so that the
    comparison is one of integers). *)
Definition at_most (K eb lo : Z) (x : float32) : Prop :=
  (exists s, x = S754_zero s)
  \/ exists m e,
       x = S754_finite false m e
       /\ lo <= e
       /\ Zpos m * 2 ^ (e + 512) <= K * 2 ^ (eb + 512).

(** Some voltages: 0.375, 0.5, 4.0 and -1.0. *)
Definition f32_0v375 : float32 := S754_finite false 12582912 (-25).
Definition f32_0v5 : float32 := S754_finite false 8388608 (-24).
Definition f32_4v0 : float32 := S754_finite false 8388608 (-21).
Definition f32_minus_1v0 : float32 := S754_finite true 8388608 (-23).

(** The format string of line 184. *)
Definition telemetry_format : string :=
  "SAR0 input: %.2fV " ++ String Stdio.TAB " SAR1 input: %.2fV"
    ++ String Stdio.CR (String Stdio.LF EmptyString).

Definition telemetry_line (resultV_0 resultV_1 : float32) : string :=
  Stdio.printf telemetry_format [resultV_0; resultV_1].

(* ================================================================= *)
(** ** The Conversion-to-Value Mapper *)

Record calibration := {
  fullScaleVoltage : Q;
  fullScaleCodeCount : Z
}.

(** Modelled from the spec: [Cy_SAR_CountsTo_Volts] belongs to the
    peripheral driver library and is not part of the sources; section 4.4
    gives the mapping as
    [physicalValue = rawCount * (fullScaleVoltage / fullScaleCodeCount)]. *)
Definition rawToPhysical (rawCount : Z) (cal : calibration) : Q :=
  (inject_Z rawCount
   * (fullScaleVoltage cal / inject_Z (fullScaleCodeCount cal)))%Q.

Record calibration32 := {
  fullScaleVoltage32 : float32;
  fullScaleCodeCount32 : Z
}.

(** Modelled from the spec: the same mapping evaluated in [float32_t], the
    type of [resultV_0] and [resultV_1]. *)
Definition rawToPhysical32 (rawCount : Z) (cal : calibration32) : float32 :=
  F32.mul (F32.of_int rawCount)
    (F32.div (fullScaleVoltage32 cal) (F32.of_int (fullScaleCodeCount32 cal))).

(** 3.3 as a [float32_t]: 0x40533333. *)
Definition f32_3v3 : float32 := S754_finite false 13841203 (-22).

(** The calibration of the example: 3.3 V at code 4095. *)
Definition cal_3v3 : calibration32 :=
  {| fullScaleVoltage32 := f32_3v3; fullScaleCodeCount32 := 4095 |}.

(* ================================================================= *)
(** ** Program state *)

(** Places in the body of [for (;;)], named by their line in [main.c];
    [WFI] is the processor halted inside [Cy_SysPm_CpuEnterSleep]. *)
Inductive label :=
| L158 | L161 | L163 | WFI
| L167 | L168 | L171 | L172 | L175 | L176 | L179 | L181 | L184.

(** The locals of [main] (lines 117-119). *)
Record locals := {
  sar_result0 : Z;
  sar_result1 : Z;
  resultV_0 : float32;
  resultV_1 : float32;
  product_result : float32
}.

(** The peripherals as the firmware sees them: the interrupt request
    register and the channel-0 result of each SAR, the codes handed to the
    CTDAC and the lines handed to the UART (latest first), and the number
    of polls for which the UART will still report an active transfer. *)
Record periph := {
  SAR0_INTR : Z;
  SAR1_INTR : Z;
  SAR0_RESULT : Z;
  SAR1_RESULT : Z;
  CTDAC_codes : list (option Z);
  UART_lines : list string;
  UART_busy : nat
}.

Record state := {
  sar0_isr_set : bool;
  sar1_isr_set : bool;
  pc : label;
  vars : locals;
  hw : periph
}.

Definition set_sar0_isr_set (b : bool) (s : state) : state :=
  {| sar0_isr_set := b; sar1_isr_set := sar1_isr_set s; pc := pc s;
     vars := vars s; hw := hw s |}.

Definition set_sar1_isr_set (b : bool) (s : state) : state :=
  {| sar0_isr_set := sar0_isr_set s; sar1_isr_set := b; pc := pc s;
     vars := vars s; hw := hw s |}.

Definition goto (l : label) (s : state) : state :=
  {| sar0_isr_set := sar0_isr_set s; sar1_isr_set := sar1_isr_set s; pc := l;
     vars := vars s; hw := hw s |}.

Definition set_vars (v : locals) (s : state) : state :=
  {| sar0_isr_set := sar0_isr_set s; sar1_isr_set := sar1_isr_set s;
     pc := pc s; vars := v; hw := hw s |}.

Definition set_hw (h : periph) (s : state) : state :=
  {| sar0_isr_set := sar0_isr_set s; sar1_isr_set := sar1_isr_set s;
     pc := pc s; vars := vars s; hw := h |}.

Definition with_sar_result0 (z : Z) (v : locals) : locals :=
  {| sar_result0 := z; sar_result1 := sar_result1 v; resultV_0 := resultV_0 v;
     resultV_1 := resultV_1 v; product_result := product_result v |}.

Definition with_sar_result1 (z : Z) (v : locals) : locals :=
  {| sar_result0 := sar_result0 v; sar_result1 := z; resultV_0 := resultV_0 v;
     resultV_1 := resultV_1 v; product_result := product_result v |}.

Definition with_resultV_0 (x : float32) (v : locals) : locals :=
  {| sar_result0 := sar_result0 v; sar_result1 := sar_result1 v;
     resultV_0 := x; resultV_1 := resultV_1 v;
     product_result := product_result v |}.

Definition with_resultV_1 (x : float32) (v : locals) : locals :=
  {| sar_result0 := sar_result0 v; sar_result1 := sar_result1 v;
     resultV_0 := resultV_0 v; resultV_1 := x;
     product_result := product_result v |}.

Definition with_product_result (x : float32) (v : locals) : locals :=
  {| sar_result0 := sar_result0 v; sar_result1 := sar_result1 v;
     resultV_0 := resultV_0 v; resultV_1 := resultV_1 v;
     product_result := x |}.

Definition with_intr (u : sar_unit) (z : Z) (h : periph) : periph :=
  {| SAR0_INTR := match u with SAR0 => z | SAR1 => SAR0_INTR h end;
     SAR1_INTR := match u with SAR0 => SAR1_INTR h | SAR1 => z end;
     SAR0_RESULT := SAR0_RESULT h; SAR1_RESULT := SAR1_RESULT h;
     CTDAC_codes := CTDAC_codes h; UART_lines := UART_lines h;
     UART_busy := UART_busy h |}.

Definition with_result (u : sar_unit) (z : Z) (h : periph) : periph :=
  {| SAR0_INTR := SAR0_INTR h; SAR1_INTR := SAR1_INTR h;
     SAR0_RESULT := match u with SAR0 => z | SAR1 => SAR0_RESULT h end;
     SAR1_RESULT := match u with SAR0 => SAR1_RESULT h | SAR1 => z end;
     CTDAC_codes := CTDAC_codes h; UART_lines := UART_lines h;
     UART_busy := UART_busy h |}.

Definition with_code (c : option Z) (h : periph) : periph :=
  {| SAR0_INTR := SAR0_INTR h; SAR1_INTR := SAR1_INTR h;
     SAR0_RESULT := SAR0_RESULT h; SAR1_RESULT := SAR1_RESULT h;
     CTDAC_codes := c :: CTDAC_codes h; UART_lines := UART_lines h;
     UART_busy := UART_busy h |}.

Definition with_line (l : string) (h : periph) : periph :=
  {| SAR0_INTR := SAR0_INTR h; SAR1_INTR := SAR1_INTR h;
     SAR0_RESULT := SAR0_RESULT h; SAR1_RESULT := SAR1_RESULT h;
     CTDAC_codes := CTDAC_codes h; UART_lines := l :: UART_lines h;
     UART_busy := (UART_busy h + String.length l)%nat |}.

Definition with_busy (n : nat) (h : periph) : periph :=
  {| SAR0_INTR := SAR0_INTR h; SAR1_INTR := SAR1_INTR h;
     SAR0_RESULT := SAR0_RESULT h; SAR1_RESULT := SAR1_RESULT h;
     CTDAC_codes := CTDAC_codes h; UART_lines := UART_lines h;
     UART_busy := n |}.

(* ================================================================= *)
(** ** Driver calls *)

Definition SAR_INTR (u : sar_unit) (h : periph) : Z :=
  match u with SAR0 => SAR0_INTR h | SAR1 => SAR1_INTR h end.

(** [Cy_SAR_GetInterruptStatus(base)]: the interrupt request register. *)
Definition Cy_SAR_GetInterruptStatus (u : sar_unit) (s : state) : Z :=
  SAR_INTR u (hw s).

(** Modelled from the spec: the platform service "clear-signal" of
    section 6, [Cy_SAR_ClearInterrupt(base, mask)] of the driver library:
    the request bits selected by [mask] are cleared, the others kept. *)
Definition Cy_SAR_ClearInterrupt (u : sar_unit) (mask : Z) (s : state) : state :=
  set_hw (with_intr u (Z.ldiff (SAR_INTR u (hw s)) mask) (hw s)) s.

(** [Cy_SAR_GetResult16(base, 0)]. *)
Definition Cy_SAR_GetResult16 (u : sar_unit) (s : state) : Z :=
  match u with SAR0 => SAR0_RESULT (hw s) | SAR1 => SAR1_RESULT (hw s) end.

(** [cyhal_uart_is_tx_active]. *)
Definition cyhal_uart_is_tx_active (s : state) : bool :=
  negb (Nat.eqb (UART_busy (hw s)) 0).

(* ================================================================= *)
(** ** The interrupt handlers (lines 296-306 and 321-331) *)

Definition sar0_interrupt `{Pdl} (s : state) : state :=
  let s :=
    if Z.eqb (Z.land (Cy_SAR_GetInterruptStatus SAR0 s) CY_SAR_INTR_EOS) 0
    then s
    else set_sar0_isr_set true s in
  Cy_SAR_ClearInterrupt SAR0 CY_SAR_INTR s.

Definition sar1_interrupt `{Pdl} (s : state) : state :=
  let s :=
    if Z.eqb (Z.land (Cy_SAR_GetInterruptStatus SAR1 s) CY_SAR_INTR_EOS) 0
    then s
    else set_sar1_isr_set true s in
  Cy_SAR_ClearInterrupt SAR1 CY_SAR_INTR s.

Definition handler `{Pdl} (u : sar_unit) : state -> state :=
  match u with SAR0 => sar0_interrupt | SAR1 => sar1_interrupt end.

(* ================================================================= *)
(** ** The body of the endless loop of [main] (lines 155-186) *)

(** One statement of the loop.  Each poll of line 158 lets the transfer
    advance by one unit; the halted processor does nothing by itself. *)
Definition main_step `{Pdl} (s : state) : state :=
  match pc s with
  | L158 =>
      if cyhal_uart_is_tx_active s
      then set_hw (with_busy (Nat.pred (UART_busy (hw s))) (hw s)) s
      else goto L161 s
  | L161 =>
      if negb (sar0_isr_set s && sar1_isr_set s) then goto L163 s
      else goto L167 s
  | L163 => goto WFI s
  | WFI => s
  | L167 => goto L168 (set_sar0_isr_set false s)
  | L168 => goto L171 (set_sar1_isr_set false s)
  | L171 =>
      goto L172
        (set_vars (with_sar_result0 (Cy_SAR_GetResult16 SAR0 s) (vars s)) s)
  | L172 =>
      goto L175
        (set_vars (with_sar_result1 (Cy_SAR_GetResult16 SAR1 s) (vars s)) s)
  | L175 =>
      goto L176
        (set_vars
           (with_resultV_0
              (Cy_SAR_CountsTo_Volts SAR0 0 (sar_result0 (vars s))) (vars s)) s)
  | L176 =>
      goto L179
        (set_vars
           (with_resultV_1
              (Cy_SAR_CountsTo_Volts SAR1 0 (sar_result1 (vars s))) (vars s)) s)
  | L179 =>
      goto L181
        (set_vars
           (with_product_result
              (F32.mul (resultV_0 (vars s)) (resultV_1 (vars s))) (vars s)) s)
  | L181 =>
      goto L184
        (set_hw (with_code (scaled_code (product_result (vars s))) (hw s)) s)
  | L184 =>
      goto L158
        (set_hw
           (with_line
              (telemetry_line (resultV_0 (vars s)) (resultV_1 (vars s)))
              (hw s)) s)
  end.

(* ================================================================= *)
(** ** Interleaving of the loop with the two interrupts *)

(** What can happen next: the loop executes one statement, or a SAR raises
    the request bits [cause] with [counts] in its result register and its
    handler runs.  Both interrupts have priority 7 (lines 80-90), so a
    handler runs to its end before anything else happens. *)
Inductive event :=
| Main
| Irq (u : sar_unit) (cause : Z) (counts : Z).

(** The hardware side of an interrupt. *)
Definition raise (u : sar_unit) (cause counts : Z) (s : state) : state :=
  set_hw
    (with_intr u (Z.lor (SAR_INTR u (hw s)) cause) (with_result u counts (hw s)))
    s.

(** An interrupt ends the wait of a halted processor: the call of line 163
    returns and the loop condition of line 161 is evaluated again. *)
Definition wake (s : state) : state :=
  match pc s with
  | WFI => goto L161 s
  | _ => s
  end.

Definition step `{Pdl} (s : state) (e : event) : state :=
  match e with
  | Main => main_step s
  | Irq u cause counts => wake (handler u (raise u cause counts s))
  end.

Definition run `{Pdl} (s : state) (evs : list event) : state :=
  fold_left step evs s.

(** The end of a scan of unit [u]. *)
Definition Eos `{Pdl} (u : sar_unit) (counts : Z) : event :=
  Irq u CY_SAR_INTR_EOS counts.

(** The state on entry of the loop: flags as initialised at lines 93-94,
    locals as at lines 117-119, nothing requested, nothing written. *)
Definition boot : state :=
  {| sar0_isr_set := false;
     sar1_isr_set := false;
     pc := L158;
     vars := {| sar_result0 := 0; sar_result1 := 0;
                resultV_0 := F32.zero; resultV_1 := F32.zero;
                product_result := F32.zero |};
     hw := {| SAR0_INTR := 0; SAR1_INTR := 0;
              SAR0_RESULT := 0; SAR1_RESULT := 0;
              CTDAC_codes := []; UART_lines := []; UART_busy := 0 |} |}.

(** The three parts of an iteration. *)
Inductive phase := Drain | Wait | Process.

Definition phase_of (l : label) : phase :=
  match l with
  | L158 => Drain
  | L161 | L163 | WFI => Wait
  | _ => Process
  end.

Definition next_phase (p : phase) : phase :=
  match p with
  | Drain => Wait
  | Wait => Process
  | Process => Drain
  end.

(* ================================================================= *)
(** ** Completion signals delivered to the waiting loop *)

(** The loop runs until the processor halts again. *)
Fixpoint run_to_sleep `{Pdl} (fuel : nat) (s : state) : option state :=
  match fuel with
  | O => None
  | S fuel' =>
      match pc s with
      | WFI => Some s
      | _ => run_to_sleep fuel' (main_step s)
      end
  end.

(** Handlers that run back to back, before the loop resumes. *)
Definition burst `{Pdl} (b : list (sar_unit * Z)) (s : state) : state :=
  fold_left (fun s uc => step s (Eos (fst uc) (snd uc))) b s.

(** Number of result sets processed so far. *)
Definition cycles (s : state) : nat := List.length (CTDAC_codes (hw s)).

(** Bursts of completion signals arrive one after the other while the
    processor is halted; after each, the loop runs until it halts again.
    The result lists how many result sets each burst made the loop
    process. *)
Fixpoint deliver `{Pdl} (fuel : nat) (bs : list (list (sar_unit * Z)))
  (s : state) : option (list nat * state) :=
  match bs with
  | [] => Some ([], s)
  | b :: bs' =>
      let s1 := burst b s in
      match run_to_sleep fuel s1 with
      | None => None
      | Some s2 =>
          match deliver fuel bs' s2 with
          | None => None
          | Some (opens, s3) =>
              Some ((cycles s2 - cycles s1)%nat :: opens, s3)
          end
      end
  end.

Definition is_unit (u v : sar_unit) : bool :=
  match u, v with
  | SAR0, SAR0 | SAR1, SAR1 => true
  | _, _ => false
  end.

(** The gate as section 8 words it: [ready0] and [ready1] record which
    units have signalled since the last opening; the gate opens, once,
    when both have, and both are reset. *)
Fixpoint gate_spec (ready0 ready1 : bool) (bs : list (list sar_unit))
  : list nat :=
  match bs with
  | [] => []
  | b :: bs' =>
      let ready0 := ready0 || existsb (is_unit SAR0) b in
      let ready1 := ready1 || existsb (is_unit SAR1) b in
      if ready0 && ready1 then 1%nat :: gate_spec false false bs'
      else 0%nat :: gate_spec ready0 ready1 bs'
  end.

(** The flag of a unit, and the statement of [main] that clears it. *)
Definition flag (u : sar_unit) (s : state) : bool :=
  match u with SAR0 => sar0_isr_set s | SAR1 => sar1_isr_set s end.

Definition clear_label (u : sar_unit) : label :=
  match u with SAR0 => L167 | SAR1 => L168 end.

(** Section 8, property 2, read on the interleavings of this model.  The
    gate has just opened when control stands at line 167.  First half: when
    control has reached line 171, both flags read false.  Second half: a
    completion signal that arrives then is seen set at the next evaluation
    of the gate. *)
Definition flags_false_after_opening `{Pdl} : Prop :=
  forall (s : state) (evs : list event),
    pc s = L167 -> pc (run s evs) = L171 ->
    sar0_isr_set (run s evs) = false /\ sar1_isr_set (run s evs) = false.

Definition late_signal_captured `{Pdl} : Prop :=
  forall (s : state) (u : sar_unit) (counts : Z) (n : nat),
    pc s = L167 ->
    pc (run (step s (Eos u counts)) (repeat Main n)) = L161 ->
    flag u (run (step s (Eos u counts)) (repeat Main n)) = true.

Definition flag_reset_atomicity `{Pdl} : Prop :=
  flags_false_after_opening /\ late_signal_captured.

(** The driver library as configured for the kit: end of scan is bit 0 of
    the three request bits, and counts map linearly to 3.3 V at 4095. *)
#[export] Instance psoc6 : Pdl.
Proof.
  refine {| CY_SAR_INTR_EOS := 1;
            CY_SAR_INTR := 7;
            Cy_SAR_CountsTo_Volts :=
              fun _ _ counts => rawToPhysical32 counts cal_3v3 |}.
  discriminate.
Defined.

(** While control stands at a clearing statement, the flag it is about to
    clear is set: the test of line 161 has seen both set, and between the
    test and the clear only handlers run. *)
Definition clear_inv (s : state) : Prop :=
  (pc s = L167 -> sar0_isr_set s = true /\ sar1_isr_set s = true)
  /\ (pc s = L168 -> sar1_isr_set s = true).

(** The state in which the gate has just opened on the kit: the loop has
    drained, found the gate closed and halted; unit 0 has delivered 1241
    counts (1.00 V) and unit 1 2482 counts (2.00 V); the loop has evaluated
    line 161 again and stands at line 167. *)
Definition gate_just_opened : state :=
  @run psoc6 boot
    [Main; Main; Main; @Eos psoc6 SAR0 1241; @Eos psoc6 SAR1 2482; Main].

(** The processor halted for the first time after the entry of the loop. *)
Definition first_halt : state := @run psoc6 boot [Main; Main; Main].

(* ================================================================= *)
(** ** Start-up: [main] before its loop (lines 111-153) and
       [init_analog_resources] (lines 202-281) *)

(** Lines 78-90. *)
Record cy_stc_sysint_t := {
  intrSrc : sar_unit;
  intrPriority : Z
}.

Definition SAR0_IRQ_cfg : cy_stc_sysint_t :=
  {| intrSrc := SAR0; intrPriority := 7 |}.

Definition SAR1_IRQ_cfg : cy_stc_sysint_t :=
  {| intrSrc := SAR1; intrPriority := 7 |}.

(** Line 64. *)
Definition TCPWM_CNT_NUM : Z := 0.

(** The calls the start-up makes, with the arguments the source writes
    (the configuration structures generated by the device configurator
    are left out); [Cy_SysInt_Init] names the handler it installs by its
    unit. *)
Inductive call :=
| cybsp_init
| cy_retarget_io_init
| Printf (text : string)
| Cy_SysAnalog_Init
| Cy_SysAnalog_Enable
| Cy_SAR_CommonInit
| Cy_SAR_Init (u : sar_unit)
| Cy_SAR_Enable (u : sar_unit)
| Cy_SAR_SetInterruptMask (u : sar_unit) (mask : Z)
| Cy_SysInt_Init (cfg : cy_stc_sysint_t) (isr : sar_unit)
| NVIC_EnableIRQ (src : sar_unit)
| Cy_CTB_OpampInit
| Cy_CTDAC_Init
| Cy_CTDAC_Enable
| Cy_CTB_Enable
| Cy_TCPWM_Counter_Init (cnt : Z)
| Cy_TCPWM_Counter_Enable (cnt : Z)
| enable_irq
| Cy_TCPWM_TriggerStart_Single (cnt : Z).

(** What the start-up cannot know: which calls return their success code,
    and whether assertions are compiled in.  [CY_ASSERT] is a macro of the
    driver library: a failed assertion halts the processor, and with
    [NDEBUG] the macro expands to nothing. *)
Record platform := {
  returns_success : call -> bool;
  NDEBUG : bool
}.

(** A start-up computation extends the list of calls made so far and
    either returns or halts in a failed assertion ([None]). *)
Definition startup (A : Type) : Type :=
  platform -> list call -> list call * option A.

Definition startup_ret {A : Type} (a : A) : startup A :=
  fun _ made => (made, Some a).

Definition startup_bind {A B : Type} (m : startup A) (k : A -> startup B)
  : startup B :=
  fun pf made =>
    match m pf made with
    | (made', Some a) => k a pf made'
    | (made', None) => (made', None)
    end.

Notation "m ;; k" := (startup_bind m (fun _ => k))
  (at level 61, right associativity).

(** [result = f(...)]: true when [result] is the success code. *)
Definition invoke (c : call) : startup bool :=
  fun pf made => (made ++ [c], Some (returns_success pf c)).

Definition CY_ASSERT (x : bool) : startup unit :=
  fun pf made => (made, if x || NDEBUG pf then Some tt else None).

(** [result = f(...); if (result != SUCCESS) { CY_ASSERT(0); }] *)
Definition checked (c : call) : startup unit :=
  startup_bind (invoke c)
    (fun ok => if ok then startup_ret tt else CY_ASSERT false).

(** [f(...);] and [(void)f(...);] *)
Definition unchecked (c : call) : startup unit :=
  startup_bind (invoke c) (fun _ => startup_ret tt).

(** Lines 202-281. *)
Definition init_analog_resources `{Pdl} : startup unit :=
  checked Cy_SysAnalog_Init ;;
  unchecked Cy_SysAnalog_Enable ;;
  checked Cy_SAR_CommonInit ;;
  checked (Cy_SAR_Init SAR0) ;;
  checked (Cy_SAR_Init SAR1) ;;
  unchecked (Cy_SAR_Enable SAR0) ;;
  unchecked (Cy_SAR_Enable SAR1) ;;
  unchecked (Cy_SAR_SetInterruptMask SAR0 CY_SAR_INTR) ;;
  unchecked (Cy_SAR_SetInterruptMask SAR1 CY_SAR_INTR) ;;
  unchecked (Cy_SysInt_Init SAR0_IRQ_cfg SAR0) ;;
  unchecked (Cy_SysInt_Init SAR1_IRQ_cfg SAR1) ;;
  unchecked (NVIC_EnableIRQ (intrSrc SAR0_IRQ_cfg)) ;;
  unchecked (NVIC_EnableIRQ (intrSrc SAR1_IRQ_cfg)) ;;
  checked Cy_CTB_OpampInit ;;
  checked Cy_CTDAC_Init ;;
  unchecked Cy_CTDAC_Enable ;;
  unchecked Cy_CTB_Enable ;;
  checked (Cy_TCPWM_Counter_Init TCPWM_CNT_NUM) ;;
  unchecked (Cy_TCPWM_Counter_Enable TCPWM_CNT_NUM).

Definition ESC : ascii := ascii_of_nat 27.
Definition CRLF : string := String Stdio.CR (String Stdio.LF EmptyString).
Definition NL : string := String Stdio.LF EmptyString.

(** The texts of lines 139-144. *)
Definition banner : list string :=
  [ String ESC ("[2J" ++ String ESC "[;H");
    "-----------------------------------------------------------" ++ CRLF;
    "PSoC 6 MCU: Simultaneous Sampling SAR ADCs " ++ CRLF;
    "-----------------------------------------------------------"
      ++ CRLF ++ NL;
    "Provide input voltages at pin P10.0 and P10.2 and observe " ++ CRLF;
    "the scaled product of inputs on pin P9.2." ++ CRLF ++ NL ]%string.

Fixpoint print_all (texts : list string) : startup unit :=
  match texts with
  | [] => startup_ret tt
  | t :: texts' => unchecked (Printf t) ;; print_all texts'
  end.

(** Lines 121-153: [main] up to the entry of its loop. *)
Definition main_startup `{Pdl} : startup unit :=
  checked cybsp_init ;;
  checked cy_retarget_io_init ;;
  print_all banner ;;
  init_analog_resources ;;
  unchecked enable_irq ;;
  unchecked (Cy_TCPWM_TriggerStart_Single TCPWM_CNT_NUM).

(** The same two sequences as lists: each call with whether the source
    checks its result. *)
Definition analog_script `{Pdl} : list (call * bool) :=
  [ (Cy_SysAnalog_Init, true);
    (Cy_SysAnalog_Enable, false);
    (Cy_SAR_CommonInit, true);
    (Cy_SAR_Init SAR0, true);
    (Cy_SAR_Init SAR1, true);
    (Cy_SAR_Enable SAR0, false);
    (Cy_SAR_Enable SAR1, false);
    (Cy_SAR_SetInterruptMask SAR0 CY_SAR_INTR, false);
    (Cy_SAR_SetInterruptMask SAR1 CY_SAR_INTR, false);
    (Cy_SysInt_Init SAR0_IRQ_cfg SAR0, false);
    (Cy_SysInt_Init SAR1_IRQ_cfg SAR1, false);
    (NVIC_EnableIRQ SAR0, false);
    (NVIC_EnableIRQ SAR1, false);
    (Cy_CTB_OpampInit, true);
    (Cy_CTDAC_Init, true);
    (Cy_CTDAC_Enable, false);
    (Cy_CTB_Enable, false);
    (Cy_TCPWM_Counter_Init TCPWM_CNT_NUM, true);
    (Cy_TCPWM_Counter_Enable TCPWM_CNT_NUM, false) ].

Definition main_script `{Pdl} : list (call * bool) :=
  [ (cybsp_init, true); (cy_retarget_io_init, true) ]
  ++ map (fun t => (Printf t, false)) banner
  ++ analog_script
  ++ [ (enable_irq, false);
       (Cy_TCPWM_TriggerStart_Single TCPWM_CNT_NUM, false) ].

(** A list of calls made one after the other. *)
Fixpoint perform (script : list (call * bool)) : startup unit :=
  match script with
  | [] => startup_ret tt
  | (c, true) :: script' => checked c ;; perform script'
  | (c, false) :: script' => unchecked c ;; perform script'
  end.

(** In [made], every occurrence of [c2] comes after one of [c1]. *)
Definition precedes (made : list call) (c1 c2 : call) : Prop :=
  forall i, nth_error made i = Some c2 ->
            exists j, (j < i)%nat /\ nth_error made j = Some c1.

(** The calls whose result the start-up checks. *)
Definition checked_calls : list call :=
  [ cybsp_init; cy_retarget_io_init; Cy_SysAnalog_Init; Cy_SAR_CommonInit;
    Cy_SAR_Init SAR0; Cy_SAR_Init SAR1; Cy_CTB_OpampInit; Cy_CTDAC_Init;
    Cy_TCPWM_Counter_Init TCPWM_CNT_NUM ].

(** The configuration structure of the interrupt of a unit. *)
Definition IRQ_cfg (u : sar_unit) : cy_stc_sysint_t :=
  match u with SAR0 => SAR0_IRQ_cfg | SAR1 => SAR1_IRQ_cfg end.

(** Four platforms: a debug build on which every call succeeds, one on
    which the initialisation of SAR1 fails, one on which the installation
    of the handlers fails, and a release build on which every call
    fails. *)
Definition all_succeed : platform :=
  {| returns_success := fun _ => true; NDEBUG := false |}.

Definition SAR1_init_fails : platform :=
  {| returns_success :=
       fun c => match c with Cy_SAR_Init SAR1 => false | _ => true end;
     NDEBUG := false |}.

Definition SysInt_init_fails : platform :=
  {| returns_success :=
       fun c => match c with Cy_SysInt_Init _ _ => false | _ => true end;
     NDEBUG := false |}.

Definition release_build : platform :=
  {| returns_success := fun _ => false; NDEBUG := true |}.

(* ================================================================= *)
(** ** Further notions for the loop and the code *)

(** The sign bit of a [float32_t] (none for a NaN). *)
Definition sign_bit (x : float32) : bool :=
  match x with
  | S754_zero s | S754_infinity s | S754_finite s _ _ => s
  | S754_nan => false
  end.

(** Codes and lines that belong together: each line prints the two
    voltages from which the code beside it was computed. *)
Definition paired (codes : list (option Z)) (lines : list string) : Prop :=
  Forall2
    (fun c l =>
       exists v0 v1, c = compute v0 v1 /\ l = telemetry_line v0 v1)
    codes lines.

(** What holds of the outputs at each place of the loop. *)
Definition outputs_inv (s : state) : Prop :=
  (pc s = L181 ->
   product_result (vars s)
   = F32.mul (resultV_0 (vars s)) (resultV_1 (vars s)))
  /\ (pc s = L184 ->
      exists codes,
        CTDAC_codes (hw s)
        = compute (resultV_0 (vars s)) (resultV_1 (vars s)) :: codes
        /\ paired codes (UART_lines (hw s)))
  /\ (pc s <> L184 -> paired (CTDAC_codes (hw s)) (UART_lines (hw s))).

(** The UART is idle whenever control is outside the drain. *)
Definition idle_inv (s : state) : Prop :=
  pc s <> L158 -> UART_busy (hw s) = 0%nat.

(** Number of bursts in which unit [u] signals. *)
Definition bursts_with (u : sar_unit) (bs : list (list sar_unit)) : nat :=
  List.length (filter (existsb (is_unit u)) bs).

(** Statements from a place of the processing part to the drain. *)
Definition statements_to_drain (l : label) : nat :=
  match l with
  | L167 => 9 | L168 => 8 | L171 => 7 | L172 => 6 | L175 => 5
  | L176 => 4 | L179 => 3 | L181 => 2 | L184 => 1
  | _ => 0
  end.

(** Both units have signalled to the halted processor, which stands at
    the test of line 161 again. *)
Definition both_signalled : state :=
  @run psoc6 first_halt [@Eos psoc6 SAR0 1241; @Eos psoc6 SAR1 2482].

(** Unit 1 has signalled, the test of line 161 has failed, and the
    processor is about to halt. *)
Definition about_to_halt : state :=
  @run psoc6 boot [Main; @Eos psoc6 SAR1 2482; Main].

(** ** What a printed number denotes *)

(** The value of a decimal digit. *)
Definition digit_value (c : ascii) : Z := Z.of_nat (nat_of_ascii c) - 48.

(** The digits of a string read as one decimal number, whatever stands
    between them: for a number printed with two decimals, its magnitude
    in hundredths. *)
Fixpoint digits_value (acc : Z) (s : string) : Z :=
  match s with
  | EmptyString => acc
  | String c r =>
      digits_value
        (if Stdio.is_digit c then 10 * acc + digit_value c else acc) r
  end.

Definition in_hundredths (s : string) : Z := digits_value 0 s.

Definition has_minus (s : string) : bool :=
  match s with
  | String c _ => Ascii.eqb c "-"
  | EmptyString => false
  end.

(** The magnitude of a [float32_t]. *)
Definition magnitude (v : float32) : Q :=
  if sign_bit v then (- F32.to_Q v)%Q else F32.to_Q v.

(** [h] hundredths is [q] rounded to the nearest hundredth, a tie to the
    even one: [h - 1/2 <= 100 q <= h + 1/2]. *)
Definition nearest_hundredth (q : Q) (h : Z) : Prop :=
  (inject_Z (2 * h - 1) <= inject_Z 200 * q)%Q
  /\ (inject_Z 200 * q <= inject_Z (2 * h + 1))%Q
  /\ ((inject_Z 200 * q == inject_Z (2 * h - 1))%Q
      \/ (inject_Z 200 * q == inject_Z (2 * h + 1))%Q ->
      Z.even h = true).

(** The numeral [d] stands for the voltage [v] rounded to hundredths,
    with the sign of [v]. *)
Definition denotes_rounded (d : string) (v : float32) : Prop :=
  has_minus d = sign_bit v
  /\ nearest_hundredth (magnitude v) (in_hundredths d).

(** ** Gate correctness for signals at any place of the loop *)

(** An interleaving of statements of the loop ([None]) with completion
    signals. *)
Definition interleaving : Type := list (option (sar_unit * Z)).

Definition events `{Pdl} (i : interleaving) : list event :=
  map (fun o => match o with None => Main | Some (u, c) => Eos u c end) i.



(** The proofs about control flow never look inside the arithmetic. *)
Arguments telemetry_line : simpl never.
Arguments scaled_code : simpl never.
Arguments F32.mul : simpl never.

(* ================================================================= *)
(** * Properties of the handlers and of the loop *)

Section Firmware.

Context {P : Pdl}.

Ltac crush_state s :=
  let h := fresh "h" in
  destruct s as [? ? ? ? h]; destruct h; cbn in *.

Lemma land_lor_same (x m : Z) : Z.land (Z.lor x m) m = m.
Proof.
  apply Z.bits_inj'; intros n _.
  rewrite Z.land_spec, Z.lor_spec.
  destruct (Z.testbit x n), (Z.testbit m n); reflexivity.
Qed.

Lemma land_ldiff_same (x m : Z) : Z.land (Z.ldiff x m) m = 0.
Proof.
  apply Z.bits_inj'; intros n _.
  rewrite Z.land_spec, Z.ldiff_spec, Z.bits_0.
  destruct (Z.testbit x n), (Z.testbit m n); reflexivity.
Qed.

(** ** The handlers *)

Lemma handler_flag (u : sar_unit) (s : state) :
  flag u (handler u s)
  = if Z.eqb (Z.land (Cy_SAR_GetInterruptStatus u s) CY_SAR_INTR_EOS) 0
    then flag u s else true.
Proof.
  destruct u; unfold handler, sar0_interrupt, sar1_interrupt;
    crush_state s; unfold Cy_SAR_GetInterruptStatus; cbn;
    match goal with |- context [Z.eqb ?a 0] => destruct (Z.eqb a 0) end;
    reflexivity.
Qed.

Lemma handler_clears_requests (u : sar_unit) (s : state) :
  Z.land (Cy_SAR_GetInterruptStatus u (handler u s)) CY_SAR_INTR = 0.
Proof.
  destruct u; unfold handler, sar0_interrupt, sar1_interrupt;
    crush_state s; unfold Cy_SAR_GetInterruptStatus; cbn;
    match goal with |- context [Z.eqb ?a 0] => destruct (Z.eqb a 0) end;
    cbn; apply land_ldiff_same.
Qed.

(** C10: a handler sets its flag exactly when the end-of-scan bit is in the
    interrupt status of its unit and leaves it as it was otherwise; in both
    cases the request bits of the unit are cleared afterwards. *)
Theorem handler_sets_flag_on_eos (u : sar_unit) (s : state) :
  flag u (handler u s)
  = (if Z.eqb (Z.land (Cy_SAR_GetInterruptStatus u s) CY_SAR_INTR_EOS) 0
     then flag u s else true)
  /\ Z.land (Cy_SAR_GetInterruptStatus u (handler u s)) CY_SAR_INTR = 0.
Proof.
  split; [ apply handler_flag | apply handler_clears_requests ].
Qed.

Lemma handler_other_flag (u v : sar_unit) (s : state) :
  u <> v -> flag v (handler u s) = flag v s.
Proof.
  intros Huv; destruct u, v; try congruence;
    unfold handler, sar0_interrupt, sar1_interrupt; crush_state s;
    match goal with |- context [Z.eqb ?a 0] => destruct (Z.eqb a 0) end;
    reflexivity.
Qed.

Lemma handler_keeps_set (u v : sar_unit) (s : state) :
  flag v s = true -> flag v (handler u s) = true.
Proof.
  intros Hv; destruct u, v;
    unfold handler, sar0_interrupt, sar1_interrupt; crush_state s;
    match goal with |- context [Z.eqb ?a 0] => destruct (Z.eqb a 0) end;
    cbn; auto.
Qed.

Lemma handler_pc (u : sar_unit) (s : state) : pc (handler u s) = pc s.
Proof.
  destruct u; unfold handler, sar0_interrupt, sar1_interrupt; crush_state s;
    match goal with |- context [Z.eqb ?a 0] => destruct (Z.eqb a 0) end;
    reflexivity.
Qed.

Lemma handler_cycles (u : sar_unit) (s : state) :
  cycles (handler u s) = cycles s.
Proof.
  destruct u; unfold handler, sar0_interrupt, sar1_interrupt, cycles;
    crush_state s;
    match goal with |- context [Z.eqb ?a 0] => destruct (Z.eqb a 0) end;
    reflexivity.
Qed.

Lemma wake_flag (u : sar_unit) (s : state) : flag u (wake s) = flag u s.
Proof. unfold wake; destruct u, (pc s); reflexivity. Qed.

Lemma wake_phase (s : state) : phase_of (pc (wake s)) = phase_of (pc s).
Proof. unfold wake; destruct s as [? ? [] ? ?]; reflexivity. Qed.

Lemma irq_flag_kept (u v : sar_unit) (cause counts : Z) (s : state) :
  flag v s = true -> flag v (step s (Irq u cause counts)) = true.
Proof.
  intros Hv; cbn. rewrite wake_flag. apply handler_keeps_set.
  destruct v; exact Hv.
Qed.

Lemma irq_pc (u : sar_unit) (cause counts : Z) (s : state) :
  pc (step s (Irq u cause counts)) = pc (wake s).
Proof.
  cbn. unfold wake. rewrite handler_pc.
  destruct s as [? ? [] ? ?]; cbn; rewrite ?handler_pc; reflexivity.
Qed.

Lemma eos_sets_flag (u : sar_unit) (counts : Z) (s : state) :
  flag u (step s (Eos u counts)) = true.
Proof.
  cbn. rewrite wake_flag.
  rewrite handler_flag.
  replace (Cy_SAR_GetInterruptStatus u (raise u CY_SAR_INTR_EOS counts s))
    with (Z.lor (SAR_INTR u (hw s)) CY_SAR_INTR_EOS)
    by (destruct u; reflexivity).
  rewrite land_lor_same.
  destruct (Z.eqb_spec CY_SAR_INTR_EOS 0) as [E | _]; [ | reflexivity ].
  destruct (CY_SAR_INTR_EOS_set E).
Qed.

Lemma eos_other_flag (u v : sar_unit) (counts : Z) (s : state) :
  u <> v -> flag v (step s (Eos u counts)) = flag v s.
Proof.
  intros Huv. cbn. rewrite wake_flag, (handler_other_flag u v) by exact Huv.
  destruct v; reflexivity.
Qed.

Lemma irq_cycles (u : sar_unit) (cause counts : Z) (s : state) :
  cycles (step s (Irq u cause counts)) = cycles s.
Proof.
  cbn. transitivity (cycles (handler u (raise u cause counts s))).
  - unfold wake, cycles.
    destruct (pc (handler u (raise u cause counts s))); reflexivity.
  - rewrite handler_cycles. reflexivity.
Qed.

(** ** One statement of the loop *)

Lemma main_step_flags (s : state) :
  pc s <> L167 -> pc s <> L168 ->
  sar0_isr_set (main_step s) = sar0_isr_set s
  /\ sar1_isr_set (main_step s) = sar1_isr_set s.
Proof.
  intros H7 H8. unfold main_step, cyhal_uart_is_tx_active.
  destruct s as [f0 f1 [] v h]; cbn in *; try congruence;
    repeat match goal with |- context [if ?b then _ else _] => destruct b end;
    auto.
Qed.

Lemma main_step_flag_kept (u : sar_unit) (s : state) :
  pc s <> clear_label u -> flag u s = true -> flag u (main_step s) = true.
Proof.
  intros Hpc Hu. unfold main_step, cyhal_uart_is_tx_active.
  destruct u; destruct s as [f0 f1 [] v h]; cbn in *; try congruence;
    repeat match goal with |- context [if ?b then _ else _] => destruct b end;
    auto.
Qed.

Lemma step_flag_kept (u : sar_unit) (s : state) (e : event) :
  pc s <> clear_label u -> flag u s = true -> flag u (step s e) = true.
Proof.
  intros Hpc Hu. destruct e as [ | v cause counts].
  - apply main_step_flag_kept; assumption.
  - apply irq_flag_kept; assumption.
Qed.

Lemma main_step_enters_L167 (s : state) :
  pc (main_step s) = L167 ->
  pc s = L161 /\ sar0_isr_set s = true /\ sar1_isr_set s = true.
Proof.
  unfold main_step, cyhal_uart_is_tx_active.
  destruct s as [f0 f1 [] v h]; cbn;
    repeat match goal with |- context [if ?b then _ else _] => destruct b eqn:? end;
    cbn; try discriminate.
  destruct f0, f1; try discriminate. auto.
Qed.

Lemma main_step_enters_L168 (s : state) :
  pc (main_step s) = L168 -> pc s = L167.
Proof.
  unfold main_step, cyhal_uart_is_tx_active.
  destruct s as [f0 f1 [] v h]; cbn;
    repeat match goal with |- context [if ?b then _ else _] => destruct b end;
    cbn; try discriminate; auto.
Qed.

Lemma wake_pc_clear (s : state) (l : label) :
  l = L167 \/ l = L168 -> pc (wake s) = l -> pc s = l.
Proof.
  unfold wake. destruct s as [f0 f1 [] v h]; cbn; intros [-> | ->] H;
    congruence.
Qed.

(** ** Reachable states *)

Lemma clear_inv_step (s : state) (e : event) :
  clear_inv s -> clear_inv (step s e).
Proof.
  intros [I7 I8]. destruct e as [ | u cause counts].
  - cbn. split; intros Hpc.
    + apply main_step_enters_L167 in Hpc as (Hl & H0 & H1).
      destruct (main_step_flags s) as [E0 E1]; try congruence.
      split; congruence.
    + pose proof (main_step_enters_L168 _ Hpc) as Hl.
      destruct (I7 Hl) as [_ H1].
      unfold main_step. destruct s as [f0 f1 [] v h]; cbn in *;
        try discriminate. exact H1.
  - split; intros Hpc; rewrite irq_pc in Hpc.
    + apply wake_pc_clear in Hpc; [ | auto ]. destruct (I7 Hpc) as [H0 H1].
      split.
      * apply (irq_flag_kept u SAR0); exact H0.
      * apply (irq_flag_kept u SAR1); exact H1.
    + apply wake_pc_clear in Hpc; [ | auto ].
      apply (irq_flag_kept u SAR1). exact (I8 Hpc).
Qed.

Lemma run_app (s : state) (evs evs' : list event) :
  run s (evs ++ evs') = run (run s evs) evs'.
Proof. unfold run. apply fold_left_app. Qed.

Lemma clear_inv_run (s : state) (evs : list event) :
  clear_inv s -> clear_inv (run s evs).
Proof.
  revert s; induction evs as [ | e evs IH]; intros s I; cbn.
  - exact I.
  - apply IH, clear_inv_step, I.
Qed.

Lemma clear_inv_boot : clear_inv boot.
Proof. split; cbn; discriminate. Qed.

(** C8: single writer per flag.  The handler of unit 0 never changes
    [sar1_isr_set] and the handler of unit 1 never changes [sar0_isr_set];
    a handler never resets a flag that is set; the loop writes a flag at
    lines 167 and 168 only, which control reaches only from the test of
    line 161 with both flags seen set; and in every reachable state in
    which control stands at such a clear the flag to be cleared is set. *)
Theorem single_writer_per_flag :
  (forall s, sar1_isr_set (sar0_interrupt s) = sar1_isr_set s)
  /\ (forall s, sar0_isr_set (sar1_interrupt s) = sar0_isr_set s)
  /\ (forall u s, flag u s = true -> flag u (handler u s) = true)
  /\ (forall s, pc s <> L167 -> pc s <> L168 ->
        sar0_isr_set (main_step s) = sar0_isr_set s
        /\ sar1_isr_set (main_step s) = sar1_isr_set s)
  /\ (forall s, pc (main_step s) = L167 ->
        pc s = L161 /\ sar0_isr_set s = true /\ sar1_isr_set s = true)
  /\ (forall s, pc (main_step s) = L168 -> pc s = L167)
  /\ (forall evs,
        (pc (run boot evs) = L167 ->
           sar0_isr_set (run boot evs) = true
           /\ sar1_isr_set (run boot evs) = true)
        /\ (pc (run boot evs) = L168 -> sar1_isr_set (run boot evs) = true)).
Proof.
  split; [ | split; [ | split; [ | split; [ | split; [ | split ] ] ] ] ].
  - intros s. apply (handler_other_flag SAR0 SAR1). discriminate.
  - intros s. apply (handler_other_flag SAR1 SAR0). discriminate.
  - intros u s. apply handler_keeps_set.
  - exact main_step_flags.
  - exact main_step_enters_L167.
  - exact main_step_enters_L168.
  - intros evs. exact (clear_inv_run boot evs clear_inv_boot).
Qed.

(** C7: every step of the system keeps the phase of the loop or moves it
    to the next one in the order drain, wait, process; the loop leaves the
    drain only by a poll that finds the UART idle, starts processing only
    by the test of line 161 finding both flags set, and returns to the
    drain only after the telemetry line of line 184; the loop is entered
    in the drain. *)
Theorem drain_then_wait_then_process (s : state) (e : event) :
  phase_of (pc boot) = Drain
  /\ (phase_of (pc (step s e)) = phase_of (pc s)
      \/ (phase_of (pc (step s e)) = next_phase (phase_of (pc s))
          /\ e = Main
          /\ match phase_of (pc s) with
             | Drain => cyhal_uart_is_tx_active s = false
             | Wait => sar0_isr_set s = true /\ sar1_isr_set s = true
             | Process => pc s = L184
             end)).
Proof.
  split; [ reflexivity | ].
  destruct e as [ | u cause counts].
  - unfold step, main_step.
    destruct s as [f0 f1 [] v h]; cbn;
      try (left; reflexivity);
      try (right; repeat split; reflexivity).
    + destruct (cyhal_uart_is_tx_active _) eqn:E; cbn; auto.
    + destruct f0, f1; cbn; auto.
  - left. rewrite irq_pc. apply wake_phase.
Qed.

(** ** Signals that arrive while results are processed *)

Lemma flag_kept_along (u : sar_unit) (evs : list event) :
  forall s,
    flag u s = true ->
    (forall k, (k < List.length evs)%nat ->
               pc (run s (firstn k evs)) <> clear_label u) ->
    flag u (run s evs) = true.
Proof.
  induction evs as [ | e evs IH]; intros s Hu Hpc; cbn.
  - exact Hu.
  - apply IH.
    + apply step_flag_kept; [ | exact Hu ].
      apply (Hpc 0%nat). cbn. lia.
    + intros k Hk. apply (Hpc (S k)). cbn. lia.
Qed.

Lemma clears_back_to_back (s : state) :
  pc s = L167 ->
  pc (run s [Main; Main]) = L171
  /\ sar0_isr_set (run s [Main; Main]) = false
  /\ sar1_isr_set (run s [Main; Main]) = false.
Proof.
  intros Hpc. destruct s as [f0 f1 l v h]; cbn in Hpc; subst l.
  cbn. auto.
Qed.

(** C3, as the code has it: when lines 167 and 168 run with no handler in
    between, control is at line 171 with both flags false; and a completion
    signal of a unit sets its flag, which stays set for as long as control
    does not stand at the statement that clears this flag (line 167 for
    unit 0, line 168 for unit 1), whatever else happens. *)
Theorem signal_kept_until_its_clear :
  (forall s,
      pc s = L167 ->
      pc (run s [Main; Main]) = L171
      /\ sar0_isr_set (run s [Main; Main]) = false
      /\ sar1_isr_set (run s [Main; Main]) = false)
  /\ (forall u counts s evs,
        (forall k, (k < List.length evs)%nat ->
                   pc (run (step s (Eos u counts)) (firstn k evs))
                   <> clear_label u) ->
        flag u (run (step s (Eos u counts)) evs) = true).
Proof.
  split.
  - exact clears_back_to_back.
  - intros u counts s evs Hpc. apply flag_kept_along.
    + apply eos_sets_flag.
    + exact Hpc.
Qed.

(** ** Signals delivered to the halted processor *)

Lemma run_to_sleep_mono (fuel fuel' : nat) (s s' : state) :
  run_to_sleep fuel s = Some s' -> (fuel <= fuel')%nat ->
  run_to_sleep fuel' s = Some s'.
Proof.
  revert fuel' s; induction fuel as [ | fuel IH]; intros fuel' s H Hle.
  - discriminate.
  - destruct fuel' as [ | fuel']; [ lia | ].
    cbn in *. destruct (pc s); try exact H; apply IH; try exact H; lia.
Qed.

Lemma deliver_mono (fuel fuel' : nat) (bs : list (list (sar_unit * Z))) :
  forall s r,
    deliver fuel bs s = Some r -> (fuel <= fuel')%nat ->
    deliver fuel' bs s = Some r.
Proof.
  induction bs as [ | b bs IH]; intros s r H Hle; cbn in *.
  - exact H.
  - destruct (run_to_sleep fuel (burst b s)) as [s2 | ] eqn:E2;
      [ | discriminate ].
    rewrite (run_to_sleep_mono _ fuel' _ _ E2 Hle).
    destruct (deliver fuel bs s2) as [[opens s3] | ] eqn:E3;
      [ | discriminate ].
    rewrite (IH _ _ E3 Hle). exact H.
Qed.

(** The drain of line 158 ends, and with no flag set the processor halts. *)
Lemma drain_then_sleep (n : nat) :
  forall s,
    pc s = L158 -> UART_busy (hw s) = n ->
    sar0_isr_set s = false -> sar1_isr_set s = false ->
    exists s',
      run_to_sleep (n + 4) s = Some s'
      /\ pc s' = WFI
      /\ sar0_isr_set s' = false /\ sar1_isr_set s' = false
      /\ cycles s' = cycles s.
Proof.
  induction n as [ | n IH]; intros s Hpc Hn H0 H1.
  - crush_state s. subst. cbn. eexists; repeat split.
  - destruct (IH (set_hw (with_busy n (hw s)) s)) as (s' & Hr & Hs');
      try assumption; try reflexivity.
    exists s'. split; [ | exact Hs' ].
    crush_state s. subst. cbn in *. exact Hr.
Qed.

(** With a flag missing the test of line 161 sends the processor back to
    its halt. *)
Lemma gate_closed (s : state) :
  pc s = L161 -> sar0_isr_set s && sar1_isr_set s = false ->
  run_to_sleep 3 s = Some (goto WFI s).
Proof.
  intros Hpc Hf. destruct s as [f0 f1 l v h]; cbn in *; subst l.
  cbn. rewrite Hf. reflexivity.
Qed.

Lemma run_to_sleep_steps (n : nat) :
  forall k s,
    (forall i, (i < n)%nat -> pc (Nat.iter i main_step s) <> WFI) ->
    run_to_sleep (n + k) s = run_to_sleep k (Nat.iter n main_step s).
Proof.
  induction n as [ | n IH]; intros k s Hawake.
  - reflexivity.
  - replace (S n + k)%nat with (n + S k)%nat by lia.
    rewrite IH by (intros i Hi; apply Hawake; lia).
    pose proof (Hawake n (Nat.lt_succ_diag_r n)) as Hn.
    rewrite Nat.iter_succ.
    revert Hn. generalize (Nat.iter n main_step s). intros t Hn.
    cbn [run_to_sleep]. destruct (pc t); congruence.
Qed.

(** With both flags set the loop clears them and processes one result
    set: ten statements, lines 161 to 184. *)
Lemma gate_pass (s : state) :
  pc s = L161 -> sar0_isr_set s = true -> sar1_isr_set s = true ->
  (forall k,
      run_to_sleep (10 + k) s = run_to_sleep k (Nat.iter 10 main_step s))
  /\ pc (Nat.iter 10 main_step s) = L158
  /\ sar0_isr_set (Nat.iter 10 main_step s) = false
  /\ sar1_isr_set (Nat.iter 10 main_step s) = false
  /\ cycles (Nat.iter 10 main_step s) = S (cycles s).
Proof.
  intros Hpc H0 H1. destruct s as [f0 f1 l v h]; destruct h.
  cbn in Hpc, H0, H1. subst.
  split; [ | cbn; auto ].
  intros k. apply run_to_sleep_steps.
  intros i Hi.
  do 10 (destruct i as [ | i]; [ cbn; discriminate | ]).
  lia.
Qed.

(** Then it drains the UART and halts. *)
Lemma gate_open (s : state) :
  pc s = L161 -> sar0_isr_set s = true -> sar1_isr_set s = true ->
  exists fuel s',
    run_to_sleep fuel s = Some s'
    /\ pc s' = WFI
    /\ sar0_isr_set s' = false /\ sar1_isr_set s' = false
    /\ cycles s' = S (cycles s).
Proof.
  intros Hpc H0 H1.
  destruct (gate_pass s Hpc H0 H1) as (Hk & Hp & Z0 & Z1 & Hc).
  set (s10 := Nat.iter 10 main_step s) in *.
  destruct (drain_then_sleep (UART_busy (hw s10)) s10 Hp eq_refl Z0 Z1)
    as (s' & Hr & Hp' & Z0' & Z1' & Hc').
  exists (10 + (UART_busy (hw s10) + 4))%nat, s'.
  rewrite Hk, Hc', Hc. auto.
Qed.

Lemma burst_cons (u : sar_unit) (c : Z) (b : list (sar_unit * Z))
  (s : state) :
  burst ((u, c) :: b) s = burst b (step s (Eos u c)).
Proof. reflexivity. Qed.

Lemma eos_flags (u : sar_unit) (c : Z) (s : state) :
  sar0_isr_set (step s (Eos u c)) = sar0_isr_set s || is_unit SAR0 u
  /\ sar1_isr_set (step s (Eos u c)) = sar1_isr_set s || is_unit SAR1 u.
Proof.
  destruct u; split.
  - rewrite orb_true_r. exact (eos_sets_flag SAR0 c s).
  - rewrite orb_false_r. apply (eos_other_flag SAR0 SAR1). discriminate.
  - rewrite orb_false_r. apply (eos_other_flag SAR1 SAR0). discriminate.
  - rewrite orb_true_r. exact (eos_sets_flag SAR1 c s).
Qed.

Lemma burst_effect (b : list (sar_unit * Z)) :
  forall s,
    phase_of (pc s) = Wait -> pc s <> L163 ->
    sar0_isr_set (burst b s)
    = sar0_isr_set s || existsb (is_unit SAR0) (map fst b)
    /\ sar1_isr_set (burst b s)
       = sar1_isr_set s || existsb (is_unit SAR1) (map fst b)
    /\ cycles (burst b s) = cycles s
    /\ pc (burst b s) = match b with [] => pc s | _ :: _ => L161 end.
Proof.
  induction b as [ | [u c] b IH]; intros s Hph H163.
  - cbn. rewrite !orb_false_r. auto.
  - assert (Hpc1 : pc (step s (Eos u c)) = L161).
    { unfold Eos. rewrite irq_pc. unfold wake.
      destruct s as [f0 f1 [] v h]; cbn in *; congruence. }
    rewrite burst_cons.
    destruct (IH (step s (Eos u c))) as (E0 & E1 & Ec & Ep).
    { rewrite Hpc1. reflexivity. }
    { rewrite Hpc1. discriminate. }
    destruct (eos_flags u c s) as [F0 F1].
    rewrite E0, E1, Ec, Ep, F0, F1.
    cbn [map existsb fst]. rewrite !orb_assoc.
    repeat split.
    + apply irq_cycles.
    + destruct b; [ exact Hpc1 | reflexivity ].
Qed.

Lemma deliver_refines_gate (bs : list (list (sar_unit * Z))) :
  forall s,
    pc s = WFI -> sar0_isr_set s && sar1_isr_set s = false ->
    exists fuel s',
      deliver fuel bs s
      = Some (gate_spec (sar0_isr_set s) (sar1_isr_set s) (map (map fst) bs),
              s')
      /\ pc s' = WFI.
Proof.
  induction bs as [ | b bs IH]; intros s Hpc Hf.
  - exists 0%nat, s. split; [ reflexivity | exact Hpc ].
  - destruct (burst_effect b s) as (E0 & E1 & Ec & Ep).
    { rewrite Hpc. reflexivity. }
    { rewrite Hpc. discriminate. }
    cbn [map gate_spec].
    destruct ((sar0_isr_set s || existsb (is_unit SAR0) (map fst b))
              && (sar1_isr_set s || existsb (is_unit SAR1) (map fst b)))
      eqn:Eg.
    + (* the gate opens *)
      apply andb_true_iff in Eg as [G0 G1].
      assert (Hb : pc (burst b s) = L161).
      { rewrite Ep. destruct b; [ | reflexivity ].
        cbn in G0, G1. rewrite orb_false_r in G0, G1.
        rewrite G0, G1 in Hf. discriminate. }
      destruct (gate_open (burst b s)) as (f1 & s2 & Hr & Hp2 & Z0 & Z1 & Hc);
        try congruence.
      destruct (IH s2) as (f2 & s3 & Hd & Hp3);
        [ exact Hp2 | rewrite Z0; reflexivity | ].
      exists (Nat.max f1 f2), s3. split; [ | exact Hp3 ].
      cbn [deliver].
      rewrite (run_to_sleep_mono f1 (Nat.max f1 f2) _ _ Hr) by lia.
      rewrite (deliver_mono f2 (Nat.max f1 f2) _ _ _ Hd) by lia.
      rewrite Z0, Z1, Hc. f_equal. f_equal. f_equal. lia.
    + (* it stays closed *)
      assert (Hr : exists s2,
                 run_to_sleep 3 (burst b s) = Some s2
                 /\ pc s2 = WFI
                 /\ sar0_isr_set s2 = sar0_isr_set (burst b s)
                 /\ sar1_isr_set s2 = sar1_isr_set (burst b s)
                 /\ cycles s2 = cycles (burst b s)).
      { destruct b as [ | uc b].
        - exists s. cbn. rewrite Hpc. auto.
        - exists (goto WFI (burst (uc :: b) s)). split; [ | cbn; auto ].
          apply gate_closed; [ exact Ep | rewrite E0, E1; exact Eg ]. }
      destruct Hr as (s2 & Hr & Hp2 & F0 & F1 & Hc).
      destruct (IH s2) as (f2 & s3 & Hd & Hp3).
      { exact Hp2. }
      { rewrite F0, F1, E0, E1. exact Eg. }
      exists (Nat.max 3 f2), s3. split; [ | exact Hp3 ].
      cbn [deliver].
      rewrite (run_to_sleep_mono 3 (Nat.max 3 f2) _ _ Hr) by lia.
      rewrite (deliver_mono f2 (Nat.max 3 f2) _ _ _ Hd) by lia.
      rewrite F0, F1, E0, E1, Hc. f_equal. f_equal. f_equal. lia.
Qed.


End Firmware.

(* ================================================================= *)
(** * The loop on the kit *)

Example gate_just_opened_at_L167 :
  pc gate_just_opened = L167
  /\ sar0_isr_set gate_just_opened = true
  /\ sar1_isr_set gate_just_opened = true.
Proof. vm_compute. auto. Qed.

(** The scenario of section 8, property 6: 1.00 V and 2.00 V are printed
    and the code written to the CTDAC is 744. *)
Example end_to_end_scenario :
  let s := @run psoc6 gate_just_opened (repeat Main 9) in
  pc s = L158
  /\ CTDAC_codes (hw s) = [Some 744]
  /\ UART_lines (hw s)
     = [("SAR0 input: 1.00V " ++ String Stdio.TAB " SAR1 input: 2.00V"
          ++ String Stdio.CR (String Stdio.LF EmptyString))%string].
Proof. vm_compute. auto. Qed.

(** C3 as stated fails: the gate has opened, unit 0 signals again before
    line 167 has run, and at the next evaluation of the gate its flag is
    not set; the signal has gone into the cycle that was just completed. *)
Lemma late_signal_lost : ~ @flag_reset_atomicity psoc6.
Proof.
  intros [_ Hcaptured].
  specialize (Hcaptured gate_just_opened SAR0 9 49%nat).
  vm_compute in Hcaptured.
  discriminate (Hcaptured eq_refl eq_refl).
Qed.

(** The first half fails as well: a signal of unit 0 between lines 167 and
    168 leaves its flag set at line 171. *)
Example flag_set_again_before_L171 : ~ @flags_false_after_opening psoc6.
Proof.
  intros H.
  specialize (H gate_just_opened [Main; @Eos psoc6 SAR0 9; Main]).
  vm_compute in H.
  destruct (H eq_refl eq_refl) as [H0 _]. discriminate H0.
Qed.

Lemma signal_kept_until_its_clear_witness :
  (pc (@run psoc6 gate_just_opened [Main; Main]) = L171
   /\ sar0_isr_set (@run psoc6 gate_just_opened [Main; Main]) = false
   /\ sar1_isr_set (@run psoc6 gate_just_opened [Main; Main]) = false)
  /\ flag SAR0
       (@run psoc6
          (@step psoc6 (@run psoc6 gate_just_opened [Main; Main])
             (@Eos psoc6 SAR0 9))
          [Main; @Eos psoc6 SAR1 7; Main; Main])
     = true.
Proof.
  split.
  - apply (proj1 (@signal_kept_until_its_clear psoc6) gate_just_opened).
    reflexivity.
  - apply (proj2 (@signal_kept_until_its_clear psoc6) SAR0 9
             (@run psoc6 gate_just_opened [Main; Main])
             [Main; @Eos psoc6 SAR1 7; Main; Main]).
    intros k Hk.
    do 4 (destruct k as [ | k]; [ vm_compute; discriminate | ]).
    cbn in Hk. lia.
Defined.



(** A second pair then wakes the processor, and the two pairs are
    processed as one. *)
Example two_pairs_one_opening :
  pc (@run psoc6 boot
        (@events psoc6
           [None; Some (SAR1, 2482); None; Some (SAR0, 1241); None; None;
            Some (SAR0, 1241); Some (SAR1, 2482)] ++ repeat Main 80)) = WFI
  /\ cycles
       (@run psoc6 boot
          (@events psoc6
             [None; Some (SAR1, 2482); None; Some (SAR0, 1241); None; None;
              Some (SAR0, 1241); Some (SAR1, 2482)] ++ repeat Main 80))
     = 1%nat
  /\ list_sum (gate_spec false false [[SAR1]; [SAR0]; [SAR0]; [SAR1]])
     = 2%nat.
Proof. vm_compute. repeat split. Qed.

(** Either order, and both at once: one opening each. *)
Example gate_either_order :
  option_map fst (@deliver psoc6 60 [[(SAR0, 1)]; [(SAR1, 2)]] first_halt)
  = Some [0; 1]%nat
  /\ option_map fst (@deliver psoc6 60 [[(SAR1, 2)]; [(SAR0, 1)]] first_halt)
     = Some [0; 1]%nat
  /\ option_map fst (@deliver psoc6 60 [[(SAR0, 1); (SAR1, 2)]] first_halt)
     = Some [1]%nat.
Proof. vm_compute. auto. Qed.

(* ================================================================= *)
(** * The telemetry line *)

Lemma is_digit_digit (d : Z) : Stdio.is_digit (Stdio.digit d) = true.
Proof.
  unfold Stdio.is_digit, Stdio.digit.
  pose proof (Z.mod_pos_bound d 10 ltac:(lia)) as Hd.
  rewrite nat_ascii_embedding by lia.
  apply andb_true_iff; split; apply Nat.leb_le; lia.
Qed.

Lemma decimal_aux_all_digits (fuel : nat) :
  forall n acc,
    Stdio.all_digits acc = true ->
    Stdio.all_digits (Stdio.decimal_aux fuel n acc) = true.
Proof.
  induction fuel as [ | fuel IH]; intros n acc Hacc; cbn.
  - exact Hacc.
  - assert (H : Stdio.all_digits (String (Stdio.digit n) acc) = true)
      by (cbn [Stdio.all_digits]; rewrite is_digit_digit; exact Hacc).
    destruct (n <? 10); [ exact H | apply IH, H ].
Qed.

Lemma decimal_aux_nonempty (fuel : nat) :
  forall n acc,
    fuel <> O \/ acc <> EmptyString ->
    Stdio.decimal_aux fuel n acc <> EmptyString.
Proof.
  induction fuel as [ | fuel IH]; intros n acc H; cbn.
  - destruct H as [H | H]; [ congruence | exact H ].
  - destruct (n <? 10); [ discriminate | ].
    apply IH. right. discriminate.
Qed.

Lemma digits_then_fraction (i r : string) :
  Stdio.all_digits i = true -> Stdio.two_digits r = true ->
  forall seen,
    seen = true \/ i <> EmptyString ->
    Stdio.digits_point_two seen (i ++ String "." r) = true.
Proof.
  intros Hi Hr. induction i as [ | c i IH]; intros seen Hseen; cbn.
  - destruct Hseen as [-> | H]; [ exact Hr | congruence ].
  - cbn in Hi. apply andb_true_iff in Hi as [Hc Hi].
    rewrite Hc. apply IH; auto.
Qed.

Lemma digit_is_not_minus (c : ascii) :
  Stdio.is_digit c = true -> Ascii.eqb c "-" = false.
Proof.
  intros Hc. destruct (Ascii.eqb_spec c "-") as [-> | _];
    [ discriminate Hc | reflexivity ].
Qed.

Lemma fmt_2f_fixed2 (x : float32) :
  F32.is_finite x = true -> Stdio.is_fixed2 (Stdio.fmt_2f x) = true.
Proof.
  destruct x as [s | s | | s m e]; cbn [F32.is_finite]; try discriminate;
    intros _.
  - destruct s; reflexivity.
  - unfold Stdio.fmt_2f.
    set (h := Stdio.hundredths m e).
    set (r := String (Stdio.digit (h / 10))
                (String (Stdio.digit h) EmptyString)).
    assert (Hr : Stdio.two_digits r = true)
      by (unfold r, Stdio.two_digits; rewrite !is_digit_digit; reflexivity).
    assert (Hd : Stdio.all_digits (Stdio.decimal (h / 100)) = true)
      by (apply decimal_aux_all_digits; reflexivity).
    assert (Hn : Stdio.decimal (h / 100) <> EmptyString)
      by (apply decimal_aux_nonempty; left; discriminate).
    pose proof (digits_then_fraction _ r Hd Hr false (or_intror Hn)) as H.
    destruct s; cbn [Stdio.sign append].
    + exact H.
    + destruct (Stdio.decimal (h / 100)) as [ | c i] eqn:E;
        [ congruence | ].
      cbn [append Stdio.is_fixed2] in *.
      cbn [Stdio.all_digits] in Hd. apply andb_true_iff in Hd as [Hc _].
      rewrite (digit_is_not_minus c Hc). exact H.
Qed.

Lemma telemetry_line_shape (v0 v1 : float32) :
  telemetry_line v0 v1
  = ("SAR0 input: " ++ Stdio.fmt_2f v0 ++ "V "
       ++ String Stdio.TAB (" SAR1 input: " ++ Stdio.fmt_2f v1 ++ "V"
       ++ String Stdio.CR (String Stdio.LF EmptyString)))%string.
Proof. reflexivity. Qed.

Lemma handler_lines (P : Pdl) (u : sar_unit) (s : state) :
  UART_lines (hw (handler u s)) = UART_lines (hw s).
Proof.
  destruct u; unfold handler, sar0_interrupt, sar1_interrupt;
    destruct s as [f0 f1 l v h]; destruct h; cbn;
    match goal with |- context [Z.eqb ?a 0] => destruct (Z.eqb a 0) end;
    reflexivity.
Qed.

(** Only line 184 prints. *)
Lemma only_L184_prints (P : Pdl) (s : state) (e : event) :
  pc s <> L184 -> UART_lines (hw (step s e)) = UART_lines (hw s).
Proof.
  intros Hpc. destruct e as [ | u cause counts].
  - unfold step, main_step, cyhal_uart_is_tx_active.
    destruct s as [f0 f1 [] v h]; cbn in *; try congruence;
      repeat match goal with
             | |- context [if ?b then _ else _] => destruct b
             end;
      reflexivity.
  - cbn [step]. unfold wake.
    transitivity (UART_lines (hw (handler u (raise u cause counts s)))).
    + destruct (pc (handler u (raise u cause counts s))); reflexivity.
    + rewrite handler_lines. destruct u; reflexivity.
Qed.

(** ** What the numerals denote *)

Lemma round_half_even_spec (n d : Z) :
  0 < d ->
  2 * Stdio.round_half_even n d * d - d <= 2 * n
  /\ 2 * n <= 2 * Stdio.round_half_even n d * d + d
  /\ (2 * n = 2 * Stdio.round_half_even n d * d - d
      \/ 2 * n = 2 * Stdio.round_half_even n d * d + d ->
      Z.even (Stdio.round_half_even n d) = true).
Proof.
  intros Hd. unfold Stdio.round_half_even.
  pose proof (Z.div_mod n d ltac:(lia)) as Hn.
  pose proof (Z.mod_pos_bound n d Hd) as Hm.
  set (q := n / d) in *. set (m := n mod d) in *.
  destruct (Z.compare_spec (2 * m) d) as [E | E | E].
  - destruct (Z.even q) eqn:Eq.
    + repeat split; try nia. intros _. exact Eq.
    + repeat split; try nia. intros _.
      replace (q + 1) with (Z.succ q) by lia.
      rewrite Z.even_succ, <- Z.negb_even, Eq. reflexivity.
  - repeat split; try nia.
  - repeat split; try nia.
Qed.

Lemma round_half_even_nonneg (n d : Z) :
  0 <= n -> 0 < d -> 0 <= Stdio.round_half_even n d.
Proof.
  intros Hn Hd. unfold Stdio.round_half_even.
  pose proof (Z.div_pos n d Hn Hd).
  destruct (2 * (n mod d) ?= d); try destruct (Z.even (n / d)); lia.
Qed.

Lemma hundredths_nonneg (m : positive) (e : Z) : 0 <= Stdio.hundredths m e.
Proof.
  unfold Stdio.hundredths. destruct e as [ | p | p].
  - lia.
  - pose proof (Z.pow_pos_nonneg 2 (Zpos p) ltac:(lia) ltac:(lia)). nia.
  - apply round_half_even_nonneg; [ lia | apply Z.pow_pos_nonneg; lia ].
Qed.

Lemma magnitude_finite (s : bool) (m : positive) (e : Z) :
  magnitude (S754_finite s m e)
  = match e with
    | Zneg p => Qmake (Zpos m) (2 ^ p)
    | _ => inject_Z (Zpos m * 2 ^ e)
    end.
Proof.
  unfold magnitude. cbn [sign_bit F32.to_Q].
  destruct s, e as [ | p | p]; try reflexivity.
  - unfold Qopp, inject_Z. cbn [Qnum Qden]. f_equal.
    change (Z.neg m) with (- Z.pos m). lia.
Qed.

Lemma hundredths_nearest (s : bool) (m : positive) (e : Z) :
  nearest_hundredth (magnitude (S754_finite s m e)) (Stdio.hundredths m e).
Proof.
  rewrite magnitude_finite. unfold nearest_hundredth, Stdio.hundredths.
  destruct e as [ | p | p].
  - unfold Qle, Qeq, Qmult, inject_Z. cbn [Qnum Qden].
    rewrite Z.pow_0_r.
    split; [ lia | split; [ lia | intros [H | H]; exfalso; lia ] ].
  - pose proof (Z.pow_pos_nonneg 2 (Zpos p) ltac:(lia) ltac:(lia)) as Hp.
    unfold Qle, Qeq, Qmult, inject_Z. cbn [Qnum Qden].
    set (x := 2 ^ Z.pos p) in *.
    split; [ nia | split; [ nia | intros [H | H]; exfalso; nia ] ].
  - pose proof (Z.pow_pos_nonneg 2 (Zpos p) ltac:(lia) ltac:(lia)) as Hp.
    destruct (round_half_even_spec (100 * Zpos m) (2 ^ Zpos p) Hp)
      as (Hlo & Hhi & Htie).
    set (h := Stdio.round_half_even (100 * Zpos m) (2 ^ Zpos p)) in *.
    unfold Qle, Qeq, Qmult, inject_Z. cbn [Qnum Qden].
    rewrite !Pos.mul_1_l, Pos2Z.inj_pow.
    set (x := 2 ^ Z.pos p) in *.
    split; [ nia | split; [ nia | intros [H | H]; apply Htie; nia ] ].
Qed.

Lemma digit_value_digit (d : Z) :
  digit_value (Stdio.digit d) = d mod 10.
Proof.
  unfold digit_value, Stdio.digit.
  pose proof (Z.mod_pos_bound d 10 ltac:(lia)) as Hd.
  rewrite nat_ascii_embedding by lia. lia.
Qed.

Lemma digits_value_digit (a d : Z) (r : string) :
  digits_value a (String (Stdio.digit d) r)
  = digits_value (10 * a + d mod 10) r.
Proof.
  cbn [digits_value]. rewrite is_digit_digit, digit_value_digit.
  reflexivity.
Qed.

Lemma digits_value_app (s1 s2 : string) :
  forall a,
    digits_value a (s1 ++ s2) = digits_value (digits_value a s1) s2.
Proof.
  induction s1 as [ | c s1 IH]; intros a; cbn [append digits_value].
  - reflexivity.
  - apply IH.
Qed.

Lemma decimal_aux_value (fuel : nat) :
  forall n,
    0 <= n < 2 ^ Z.of_nat fuel ->
    exists k,
      forall a acc,
        digits_value a (Stdio.decimal_aux fuel n acc)
        = digits_value (a * k + n) acc.
Proof.
  induction fuel as [ | fuel IH]; intros n Hn.
  - exists 1. intros a acc. cbn in *. f_equal. lia.
  - rewrite Nat2Z.inj_succ, Z.pow_succ_r in Hn by lia.
    cbn [Stdio.decimal_aux].
    destruct (Z.ltb_spec n 10) as [Hlt | Hge].
    + exists 10. intros a acc. rewrite digits_value_digit.
      rewrite Z.mod_small by lia. f_equal. lia.
    + assert (Hq : 0 <= n / 10 < 2 ^ Z.of_nat fuel).
      { split; [ apply Z.div_pos; lia | ].
        apply Z.div_lt_upper_bound; lia. }
      destruct (IH (n / 10) Hq) as (k & Hk).
      exists (10 * k). intros a acc.
      rewrite Hk, digits_value_digit. f_equal.
      pose proof (Z.div_mod n 10 ltac:(lia)). lia.
Qed.

Lemma decimal_value (n : Z) (rest : string) :
  0 <= n ->
  digits_value 0 (Stdio.decimal n ++ rest) = digits_value n rest.
Proof.
  intros Hn. rewrite digits_value_app. f_equal.
  unfold Stdio.decimal.
  destruct (decimal_aux_value (S (Z.to_nat (Z.log2 n))) n) as (k & Hk).
  - rewrite Nat2Z.inj_succ, Z2Nat.id by apply Z.log2_nonneg.
    split; [ exact Hn | ].
    destruct (Z.eq_dec n 0) as [-> | Hnz]; [ reflexivity | ].
    apply Z.log2_spec. lia.
  - rewrite Hk. cbn [digits_value]. lia.
Qed.

Lemma fmt_2f_in_hundredths (s : bool) (m : positive) (e : Z) :
  in_hundredths (Stdio.fmt_2f (S754_finite s m e)) = Stdio.hundredths m e.
Proof.
  unfold in_hundredths, Stdio.fmt_2f.
  pose proof (hundredths_nonneg m e) as Hh.
  set (h := Stdio.hundredths m e) in *.
  assert (E : digits_value 0
                (Stdio.decimal (h / 100)
                   ++ String "."
                        (String (Stdio.digit (h / 10))
                           (String (Stdio.digit h) EmptyString)))
              = h).
  { rewrite decimal_value by (apply Z.div_pos; lia).
    change (digits_value (h / 100) (String "." ?r))
      with (digits_value (h / 100) r).
    rewrite !digits_value_digit. cbn [digits_value].
    pose proof (Z.div_mod h 10 ltac:(lia)).
    pose proof (Z.div_mod (h / 10) 10 ltac:(lia)).
    replace (h / 100) with (h / 10 / 10)
      by (rewrite Z.div_div by lia; reflexivity).
    lia. }
  destruct s; cbn [Stdio.sign append]; [ | exact E ].
  change (digits_value 0 (String "-" ?r)) with (digits_value 0 r).
  exact E.
Qed.

Lemma fmt_2f_has_minus (x : float32) :
  F32.is_finite x = true -> has_minus (Stdio.fmt_2f x) = sign_bit x.
Proof.
  destruct x as [s | s | | s m e]; cbn [F32.is_finite]; try discriminate;
    intros _.
  - destruct s; reflexivity.
  - unfold Stdio.fmt_2f. cbn [sign_bit].
    destruct s; cbn [Stdio.sign append]; [ reflexivity | ].
    set (h := Stdio.hundredths m e).
    assert (Hd : Stdio.all_digits (Stdio.decimal (h / 100)) = true)
      by (apply decimal_aux_all_digits; reflexivity).
    assert (Hn : Stdio.decimal (h / 100) <> EmptyString)
      by (apply decimal_aux_nonempty; left; discriminate).
    destruct (Stdio.decimal (h / 100)) as [ | c i]; [ congruence | ].
    cbn [Stdio.all_digits] in Hd. apply andb_true_iff in Hd as [Hc _].
    cbn [append has_minus]. apply digit_is_not_minus, Hc.
Qed.

(** [%.2f] prints the voltage rounded to hundredths. *)
Lemma fmt_2f_denotes (x : float32) :
  F32.is_finite x = true -> denotes_rounded (Stdio.fmt_2f x) x.
Proof.
  intros Hx. split; [ apply fmt_2f_has_minus, Hx | ].
  destruct x as [s | s | | s m e]; try discriminate Hx.
  - destruct s; vm_compute; repeat split; try discriminate;
      intros [H | H]; discriminate H.
  - rewrite fmt_2f_in_hundredths. apply hundredths_nearest.
Qed.

(** C9: the statement of line 184 hands the UART one line, which is the
    label of unit 0, a colon and a blank, the first voltage with two
    decimals, "V", a blank, a tab, a blank, the same for unit 1, and
    CR LF; each of the two numerals has the sign of its voltage and
    stands for its magnitude rounded to the nearest hundredth, a tie to
    the even one; nothing else in the loop or in the handlers prints. *)
Theorem telemetry_line_format (P : Pdl) (s : state) :
  pc s = L184 ->
  F32.is_finite (resultV_0 (vars s)) = true ->
  F32.is_finite (resultV_1 (vars s)) = true ->
  (exists d0 d1 : string,
      UART_lines (hw (main_step s))
      = ("SAR0 input: " ++ d0 ++ "V "
           ++ String Stdio.TAB (" SAR1 input: " ++ d1 ++ "V"
           ++ String Stdio.CR (String Stdio.LF EmptyString)))%string
        :: UART_lines (hw s)
      /\ d0 = Stdio.fmt_2f (resultV_0 (vars s))
      /\ d1 = Stdio.fmt_2f (resultV_1 (vars s))
      /\ Stdio.is_fixed2 d0 = true
      /\ Stdio.is_fixed2 d1 = true
      /\ denotes_rounded d0 (resultV_0 (vars s))
      /\ denotes_rounded d1 (resultV_1 (vars s)))
  /\ (forall t e,
        pc t <> L184 -> UART_lines (hw (step t e)) = UART_lines (hw t)).
Proof.
  intros Hpc H0 H1. split; [ | apply only_L184_prints ].
  exists (Stdio.fmt_2f (resultV_0 (vars s))),
         (Stdio.fmt_2f (resultV_1 (vars s))).
  split; [ | auto 10 using fmt_2f_fixed2, fmt_2f_denotes ].
  rewrite <- telemetry_line_shape.
  destruct s as [f0 f1 l v h]; cbn in Hpc; subst l. reflexivity.
Qed.

Lemma telemetry_line_format_witness :
  exists d0 d1 : string,
    UART_lines
      (hw (@main_step psoc6 (@run psoc6 gate_just_opened (repeat Main 8))))
    = ("SAR0 input: " ++ d0 ++ "V "
         ++ String Stdio.TAB (" SAR1 input: " ++ d1 ++ "V"
         ++ String Stdio.CR (String Stdio.LF EmptyString)))%string
      :: UART_lines (hw (@run psoc6 gate_just_opened (repeat Main 8)))
    /\ d0 = Stdio.fmt_2f
              (resultV_0 (vars (@run psoc6 gate_just_opened (repeat Main 8))))
    /\ d1 = Stdio.fmt_2f
              (resultV_1 (vars (@run psoc6 gate_just_opened (repeat Main 8))))
    /\ Stdio.is_fixed2 d0 = true
    /\ Stdio.is_fixed2 d1 = true
    /\ denotes_rounded d0
         (resultV_0 (vars (@run psoc6 gate_just_opened (repeat Main 8))))
    /\ denotes_rounded d1
         (resultV_1 (vars (@run psoc6 gate_just_opened (repeat Main 8)))).
Proof.
  apply (proj1
           (telemetry_line_format psoc6
              (@run psoc6 gate_just_opened (repeat Main 8))
              eq_refl eq_refl eq_refl)).
Defined.

(** The numerals of the scenario: 1.00 V and 2.00 V are printed for the
    counts 1241 and 2482, and an exact tie goes to the even hundredth. *)
Example numerals_denote :
  in_hundredths (Stdio.fmt_2f (@Cy_SAR_CountsTo_Volts psoc6 SAR0 0 1241))
  = 100
  /\ in_hundredths (Stdio.fmt_2f (@Cy_SAR_CountsTo_Volts psoc6 SAR1 0 2482))
     = 200
  /\ Stdio.fmt_2f f32_0v375 = "0.38"%string
  /\ in_hundredths (Stdio.fmt_2f f32_minus_1v0) = 100
  /\ has_minus (Stdio.fmt_2f f32_minus_1v0) = true.
Proof. vm_compute. repeat split. Qed.

(* ================================================================= *)
(** * The mapping of counts to volts *)

Lemma inject_Z_nonzero (z : Z) : z <> 0 -> ~ (inject_Z z == 0)%Q.
Proof.
  intros Hz H. unfold Qeq in H. cbn in H. lia.
Qed.

(** C6: the mapping of section 4.4 is linear in the raw count; it sends 0
    to 0 and the full-scale code count to the full-scale voltage.  In
    [float32_t] and with the calibration of the kit, 0 counts map to +0 and
    4095 counts to the [float32_t] nearest to 3.3 V. *)
Theorem rawToPhysical_linear (cal : calibration) :
  fullScaleCodeCount cal <> 0 ->
  (forall a b : Z,
      rawToPhysical (a + b) cal
      == rawToPhysical a cal + rawToPhysical b cal)%Q
  /\ (forall k a : Z,
         rawToPhysical (k * a) cal == inject_Z k * rawToPhysical a cal)%Q
  /\ (rawToPhysical 0 cal == 0)%Q
  /\ (rawToPhysical (fullScaleCodeCount cal) cal == fullScaleVoltage cal)%Q
  /\ rawToPhysical32 0 cal_3v3 = F32.zero
  /\ rawToPhysical32 (fullScaleCodeCount32 cal_3v3) cal_3v3
     = fullScaleVoltage32 cal_3v3.
Proof.
  intros Hc. pose proof (inject_Z_nonzero _ Hc) as Hq.
  unfold rawToPhysical.
  split; [ | split; [ | split; [ | split; [ | split ] ] ] ].
  - intros a b. rewrite inject_Z_plus. field. exact Hq.
  - intros k a. rewrite inject_Z_mult. field. exact Hq.
  - field. exact Hq.
  - field. exact Hq.
  - vm_compute. reflexivity.
  - vm_compute. reflexivity.
Qed.

Lemma rawToPhysical_linear_witness :
  (rawToPhysical 0
     {| fullScaleVoltage := 33 # 10; fullScaleCodeCount := 4095 |} == 0)%Q
  /\ (rawToPhysical 4095
        {| fullScaleVoltage := 33 # 10; fullScaleCodeCount := 4095 |}
      == 33 # 10)%Q.
Proof.
  pose proof (rawToPhysical_linear
                {| fullScaleVoltage := 33 # 10; fullScaleCodeCount := 4095 |}
                ltac:(discriminate)) as (_ & _ & H0 & H1 & _).
  exact (conj H0 H1).
Defined.

(* ================================================================= *)
(** * The code handed to the CTDAC *)

Lemma shiftl_pos_nonneg (m : positive) (e : Z) : 0 <= Z.shiftl (Zpos m) e.
Proof. apply Z.shiftl_nonneg. lia. Qed.

(** The integer part of a rational number: truncation toward zero. *)
Lemma to_int_value (s : bool) (m : positive) (e : Z) :
  (if s then - Z.shiftl (Zpos m) e else Z.shiftl (Zpos m) e)
  = Qtrunc (F32.to_Q (S754_finite s m e)).
Proof.
  unfold Qtrunc. cbn [F32.to_Q].
  destruct e as [ | p | p].
  - cbn [Z.shiftl Qnum Qden inject_Z]. rewrite Z.quot_1_r.
    destruct s; cbn; lia.
  - cbn [Qnum Qden inject_Z]. rewrite Z.quot_1_r, Z.shiftl_mul_pow2 by lia.
    destruct s; lia.
  - cbn [Qnum Qden].
    change (Z.shiftl (Zpos m) (Zneg p)) with (Z.shiftr (Zpos m) (Zpos p)).
    rewrite Z.shiftr_div_pow2 by lia.
    rewrite Pos2Z.inj_pow.
    assert (Hp : 0 < 2 ^ Zpos p) by (apply Z.pow_pos_nonneg; lia).
    destruct s.
    + change (Zneg m) with (- Zpos m).
      rewrite Z.quot_opp_l by lia.
      rewrite Z.quot_div_nonneg by lia. reflexivity.
    + rewrite Z.quot_div_nonneg by lia. reflexivity.
Qed.

(** The conversion to [int] is defined for the finite values whose
    integer part fits an [int], and yields that integer part. *)
Lemma to_int_truncates (x : float32) :
  F32.to_int x
  = if F32.is_finite x && in_int_range (Qtrunc (F32.to_Q x))
    then Some (Qtrunc (F32.to_Q x)) else None.
Proof.
  destruct x as [s | s | | s m e]; try reflexivity.
  cbn [F32.to_int F32.is_finite andb]. cbv zeta.
  rewrite to_int_value. reflexivity.
Qed.

(** C4, as the code has it: the code is the single-precision product of
    the two voltages, multiplied in single precision by 372 and then
    truncated toward zero by the conversion to [int], which is defined when
    that product is finite and its integer part fits an [int]. *)
Theorem scaled_code_truncates (physical0 physical1 : float32) :
  compute physical0 physical1
  = if F32.is_finite (scaled_product physical0 physical1)
       && in_int_range (Qtrunc (F32.to_Q (scaled_product physical0 physical1)))
    then Some (Qtrunc (F32.to_Q (scaled_product physical0 physical1)))
    else None.
Proof. apply to_int_truncates. Qed.

(** C4 as stated fails: 0.375 V and 0.5 V give 69.75, which rounds to 70;
    the code written is 69. *)
Lemma truncated_not_rounded :
  compute f32_0v375 f32_0v5 = Some 69
  /\ compute_rounded f32_0v375 f32_0v5 = 70
  /\ (F32.to_Q f32_0v375 * F32.to_Q f32_0v5 * inject_Z SCALING_FACTOR
      == 279 # 4)%Q.
Proof. vm_compute. auto. Qed.

Lemma mul_zero_finite (s : bool) (x : float32) :
  F32.mul (S754_zero s) x
  = match x with
    | S754_zero sx | S754_finite sx _ _ => S754_zero (xorb s sx)
    | S754_infinity _ | S754_nan => S754_nan
    end.
Proof. destruct x; reflexivity. Qed.

(** C5, as the code has it: two full-scale inputs give a code that is
    defined and within the range of the CTDAC, with no clamp applied; a
    zero input gives the code 0 whatever finite voltage the other input
    has (and no defined code when that one is infinite or a NaN). *)
Theorem full_scale_and_zero_codes :
  (exists c, compute f32_3v3 f32_3v3 = Some c /\ 0 <= c <= deviceMaxCode)
  /\ forall x : float32,
       compute F32.zero x = if F32.is_finite x then Some 0 else None.
Proof.
  split.
  - exists 4051. vm_compute. split; [ reflexivity | split; discriminate ].
  - intros x. unfold compute, scaled_code, F32.zero.
    rewrite mul_zero_finite. destruct x; reflexivity.
Qed.

(** C5 as stated fails: two full-scale inputs give the code 4051, which
    is not the maximum code 4095. *)
Lemma full_scale_below_maximum :
  compute f32_3v3 f32_3v3 = Some 4051
  /\ compute f32_3v3 f32_3v3 <> Some deviceMaxCode.
Proof. vm_compute. split; [ reflexivity | discriminate ]. Qed.

(* ================================================================= *)
(** * Rounding in binary32 *)

Lemma digits2_pos_bounds (m : positive) :
  2 ^ (Zpos (digits2_pos m) - 1) <= Zpos m < 2 ^ Zpos (digits2_pos m).
Proof.
  induction m as [m IH | m IH | ]; cbn [digits2_pos].
  - rewrite Pos2Z.inj_succ.
    replace (Z.succ (Zpos (digits2_pos m)) - 1)
      with (Z.succ (Zpos (digits2_pos m) - 1)) by lia.
    rewrite !Z.pow_succ_r by lia. lia.
  - rewrite Pos2Z.inj_succ.
    replace (Z.succ (Zpos (digits2_pos m)) - 1)
      with (Z.succ (Zpos (digits2_pos m) - 1)) by lia.
    rewrite !Z.pow_succ_r by lia. lia.
  - cbn. lia.
Qed.

Lemma iter_pos_nat {A : Type} (f : A -> A) (p : positive) :
  forall x, iter_pos f p x = Nat.iter (Pos.to_nat p) f x.
Proof.
  induction p as [p IH | p IH | ]; intros x; cbn [iter_pos].
  - rewrite !IH, Pos2Nat.inj_xI.
    rewrite <- Nat.iter_add, <- Nat.iter_succ_r.
    f_equal. lia.
  - rewrite !IH, Pos2Nat.inj_xO.
    rewrite <- Nat.iter_add. f_equal. lia.
  - reflexivity.
Qed.

Lemma shr_1_nonneg (m : Z) (r s : bool) :
  0 <= m ->
  shr_1 {| shr_m := m; shr_r := r; shr_s := s |}
  = {| shr_m := m / 2; shr_r := Z.odd m; shr_s := r || s |}.
Proof.
  intros Hm. destruct m as [ | p | p]; [ reflexivity | | lia ].
  destruct p as [p | p | ]; cbn [shr_1].
  - f_equal. rewrite Pos2Z.inj_xI. 
    replace (2 * Zpos p + 1) with (1 + Zpos p * 2) by lia.
    rewrite Z.div_add by lia. reflexivity.
  - f_equal. rewrite Pos2Z.inj_xO, Z.mul_comm, Z.div_mul by lia. reflexivity.
  - reflexivity.
Qed.

(** After [k] shifts of [m0]: the quotient, and no sticky bit when the
    division is exact. *)
Lemma shr_iter (m0 : Z) (k : nat) :
  0 <= m0 ->
  let mrs := Nat.iter k shr_1 {| shr_m := m0; shr_r := false; shr_s := false |} in
  shr_m mrs = m0 / 2 ^ Z.of_nat k
  /\ (m0 mod 2 ^ Z.of_nat k = 0 -> shr_r mrs = false /\ shr_s mrs = false).
Proof.
  intros Hm. induction k as [ | k IH].
  - cbn. rewrite Z.div_1_r. auto.
  - rewrite Nat.iter_succ. cbv zeta in IH |- *.
    destruct (Nat.iter k shr_1 _) as [m r s]. cbn [shr_m shr_r shr_s] in IH.
    destruct IH as [Em Ers].
    assert (Hp : 0 < 2 ^ Z.of_nat k) by (apply Z.pow_pos_nonneg; lia).
    rewrite shr_1_nonneg by (subst m; apply Z.div_pos; lia).
    cbn [shr_m shr_r shr_s].
    rewrite Nat2Z.inj_succ, Z.pow_succ_r by lia.
    split.
    + subst m. rewrite Z.div_div by lia. f_equal. lia.
    + intros Hmod.
      assert (Hdiv : m0 = 2 * 2 ^ Z.of_nat k * (m0 / (2 * 2 ^ Z.of_nat k))).
      { pose proof (Z.div_mod m0 (2 * 2 ^ Z.of_nat k) ltac:(lia)). lia. }
      set (q := m0 / (2 * 2 ^ Z.of_nat k)) in *.
      assert (Hm0 : m0 mod 2 ^ Z.of_nat k = 0).
      { rewrite Hdiv. replace (2 * 2 ^ Z.of_nat k * q) with ((2 * q) * 2 ^ Z.of_nat k) by lia.
        apply Z.mod_mul. lia. }
      destruct (Ers Hm0) as [-> ->].
      split; [ | reflexivity ].
      subst m. rewrite Hdiv.
      replace (2 * 2 ^ Z.of_nat k * q) with ((2 * q) * 2 ^ Z.of_nat k) by lia.
      rewrite Z.div_mul by lia. rewrite Z.odd_mul. reflexivity.
Qed.

Lemma round_nearest_even_bounds (m : Z) (l : location) :
  m <= round_nearest_even m l <= m + 1
  /\ (l = loc_Exact -> round_nearest_even m l = m).
Proof.
  destruct l as [ | [ | | ]]; cbn; try destruct (Z.even m); split; try lia; try discriminate; auto.
Qed.

(** A right shift by [n] of an exact [m0 >= 0], then rounding. *)
Lemma shr_exact (m0 e n : Z) :
  0 <= m0 ->
  let '(mrs, e') := shr {| shr_m := m0; shr_r := false; shr_s := false |} e n in
  let r := round_nearest_even (shr_m mrs) (loc_of_shr_record mrs) in
  e' = e + Z.max n 0
  /\ shr_m mrs = m0 / 2 ^ Z.max n 0
  /\ 0 <= r
  /\ (forall K, m0 <= K * 2 ^ Z.max n 0 -> r <= K).
Proof.
  intros Hm. destruct n as [ | p | p]; cbn [shr].
  - cbn. rewrite Z.div_1_r. repeat split; try lia.
  - rewrite iter_pos_nat.
    pose proof (shr_iter m0 (Pos.to_nat p) Hm) as H. cbv zeta in H.
    rewrite positive_nat_Z in H.
    destruct (Nat.iter _ _ _) as [m r s]. cbn [shr_m shr_r shr_s] in *.
    destruct H as [Em Ers].
    replace (Z.max (Zpos p) 0) with (Zpos p) by lia.
    assert (Hp : 0 < 2 ^ Zpos p) by (apply Z.pow_pos_nonneg; lia).
    assert (Hm' : 0 <= m) by (subst m; apply Z.div_pos; lia).
    destruct (round_nearest_even_bounds m
                (loc_of_shr_record {| shr_m := m; shr_r := r; shr_s := s |}))
      as [[Hlo Hhi] Hex].
    repeat split; try lia.
    intros K HK.
    pose proof (Z.div_mod m0 (2 ^ Zpos p) ltac:(lia)) as Hdm.
    pose proof (Z.mod_pos_bound m0 (2 ^ Zpos p) Hp) as Hmod.
    rewrite <- Em in Hdm.
    destruct (Z.eq_dec (m0 mod 2 ^ Zpos p) 0) as [Hz | Hnz].
    + destruct (Ers Hz) as [-> ->]. cbn [loc_of_shr_record] in *.
      rewrite Hex by reflexivity. nia.
    + assert (m < K) by nia. lia.
  - cbn. rewrite Z.div_1_r. repeat split; try lia.
Qed.

Lemma fexp_eq (x : Z) : fexp F32.prec F32.emax x = Z.max (x - 24) (-149).
Proof. reflexivity. Qed.

Lemma pow2_pos (x : Z) : 0 <= x -> 0 < 2 ^ x.
Proof. intros. apply Z.pow_pos_nonneg; lia. Qed.

Lemma pow2_split (a b : Z) : 0 <= a -> 0 <= b -> 2 ^ (a + b) = 2 ^ a * 2 ^ b.
Proof. intros. apply Z.pow_add_r; lia. Qed.

Lemma pow2_le (a b : Z) : 0 <= a <= b -> 2 ^ a <= 2 ^ b.
Proof. intros. apply Z.pow_le_mono_r; lia. Qed.

(** Rounding an exact positive product never goes above a representable
    bound [K * 2^eb] that the product does not exceed. *)
Lemma round_aux_bounded (m : positive) (e K eb : Z) :
  -512 <= e -> -149 <= eb <= 80 -> 0 < K < 2 ^ 24 ->
  Zpos m * 2 ^ (e + 512) <= K * 2 ^ (eb + 512) ->
  binary_round_aux F32.prec F32.emax false (Zpos m) e loc_Exact = S754_zero false
  \/ exists m' e',
       binary_round_aux F32.prec F32.emax false (Zpos m) e loc_Exact
       = S754_finite false m' e'
       /\ e <= e'
       /\ Zpos m' * 2 ^ (e' + 512) <= K * 2 ^ (eb + 512).
Proof.
  intros He Heb HK Hle.
  unfold binary_round_aux, shr_fexp.
  cbn [shr_record_of_loc Zdigits2].
  set (d := Zpos (digits2_pos m)).
  rewrite fexp_eq.
  set (n := Z.max (d + e - 24) (-149) - e).
  pose proof (shr_exact (Zpos m) e n ltac:(lia)) as H1.
  destruct (shr _ e n) as [mrs' e'].
  set (r1 := round_nearest_even (shr_m mrs') (loc_of_shr_record mrs')) in *.
  destruct H1 as (Ee' & _ & Hr1 & Hup).
  assert (Hb1 : r1 * 2 ^ (e' + 512) <= K * 2 ^ (eb + 512)).
  { destruct (Z.max_spec n 0) as [[Hn Hmax] | [Hn Hmax]]; rewrite Hmax in *.
    - (* no shift *)
      replace e' with e by lia.
      specialize (Hup (Zpos m)). rewrite Z.pow_0_r in Hup.
      pose proof (pow2_pos (e + 512) ltac:(lia)).
      assert (r1 <= Zpos m) by (apply Hup; lia). nia.
    - (* shift by n > 0: the exponent after the shift is at most eb *)
      pose proof (digits2_pos_bounds m) as [Hd _]. fold d in Hd.
      assert (He1 : e + n <= eb).
      { destruct (Z_le_gt_dec (e + n) eb) as [ | Hgt]; [ assumption | exfalso ].
        assert (Hde : eb + 24 < d + e) by lia.
        assert (2 ^ (eb + 24 + 512) <= 2 ^ (d - 1 + (e + 512)))
          by (apply pow2_le; lia).
        rewrite (pow2_split (d - 1) (e + 512)) in H by lia.
        replace (eb + 24 + 512) with (24 + (eb + 512)) in H by lia.
        rewrite (pow2_split 24 (eb + 512)) in H by lia.
        pose proof (pow2_pos (eb + 512) ltac:(lia)).
        pose proof (pow2_pos (e + 512) ltac:(lia)).
        assert (2 ^ (d - 1) * 2 ^ (e + 512) <= Zpos m * 2 ^ (e + 512)) by nia.
        nia. }
      subst e'.
      assert (HK' : Zpos m <= K * 2 ^ (eb - (e + n)) * 2 ^ n).
      { assert (E : K * 2 ^ (eb + 512)
                    = K * 2 ^ (eb - (e + n)) * 2 ^ n * 2 ^ (e + 512)).
        { replace (eb + 512) with ((eb - (e + n)) + (n + (e + 512))) by lia.
          rewrite (pow2_split (eb - (e + n)) (n + (e + 512))) by lia.
          rewrite (pow2_split n (e + 512)) by lia. ring. }
        rewrite E in Hle.
        pose proof (pow2_pos (e + 512) ltac:(lia)). nia. }
      specialize (Hup _ HK').
      replace (eb + 512) with ((eb - (e + n)) + (e + n + 512)) by lia.
      rewrite (pow2_split (eb - (e + n)) (e + n + 512)) by lia.
      pose proof (pow2_pos (e + n + 512) ltac:(lia)). nia. }
  assert (He' : e <= e') by lia.
  clearbody r1. clear Hup.
  (* second shift *)
  assert (Hshape : {| shr_m := r1; shr_r := false; shr_s := false |}
                   = shr_record_of_loc r1 loc_Exact) by reflexivity.
  set (n2 := fexp F32.prec F32.emax (Zdigits2 r1 + e') - e').
  pose proof (shr_exact r1 e' n2 Hr1) as H2.
  cbn [shr_record_of_loc].
  destruct (shr _ e' n2) as [mrs'' e''].
  destruct H2 as (Ee'' & Em'' & _ & _).
  assert (Hk : 0 <= Z.max n2 0) by lia.
  set (k := Z.max n2 0) in *.
  assert (Hb2 : shr_m mrs'' * 2 ^ (e'' + 512) <= K * 2 ^ (eb + 512)).
  { rewrite Em'', Ee''.
    replace (e' + k + 512) with (k + (e' + 512)) by lia.
    rewrite (pow2_split k (e' + 512)) by lia.
    pose proof (pow2_pos k Hk). pose proof (pow2_pos (e' + 512) ltac:(lia)).
    pose proof (Z.mul_div_le r1 (2 ^ k) ltac:(lia)). nia. }
  assert (Hm'' : 0 <= shr_m mrs'').
  { rewrite Em''. apply Z.div_pos; [ lia | apply pow2_pos; lia ]. }
  destruct (shr_m mrs'') as [ | p | p]; [ left; reflexivity | | lia ].
  right.
  assert (He'' : e'' <= 104).
  { destruct (Z_le_gt_dec e'' 104) as [ | Hgt]; [ assumption | exfalso ].
    assert (2 ^ (24 + (eb + 512)) <= 2 ^ (e'' + 512)) by (apply pow2_le; lia).
    rewrite (pow2_split 24 (eb + 512)) in H by lia.
    pose proof (pow2_pos (eb + 512) ltac:(lia)).
    pose proof (pow2_pos (e'' + 512) ltac:(lia)). nia. }
  replace (e'' <=? F32.emax - F32.prec) with true
    by (symmetry; apply Z.leb_le; unfold F32.emax, F32.prec; lia).
  exists p, e''. repeat split; [ lia | exact Hb2 ].
Qed.

Lemma leb_finite_pos (m1 m2 : positive) (e1 e2 : Z) :
  SFleb (S754_finite false m1 e1) (S754_finite false m2 e2) = true ->
  e1 < e2 \/ (e1 = e2 /\ Zpos m1 <= Zpos m2).
Proof.
  unfold SFleb. cbn [SFcompare].
  destruct (Z.compare_spec e1 e2) as [E | E | E].
  - change (Pos.compare_cont Eq m1 m2) with (m1 ?= m2)%positive.
    destruct (Pos.compare_spec m1 m2) as [Em | Em | Em];
      try discriminate; intros _; right; split; try assumption.
    + subst. lia.
    + apply Pos2Z.pos_lt_pos in Em. lia.
  - intros _. left. exact E.
  - discriminate.
Qed.

(** A non-negative [float32_t] that is at most 3.3: a zero, or a positive
    number whose scaled mantissa is at most that of 3.3. *)
Lemma in_range_cases (x : float32) :
  F32.valid x = true ->
  F32.leb F32.zero x = true -> F32.leb x f32_3v3 = true ->
  (exists s, x = S754_zero s)
  \/ exists m e,
       x = S754_finite false m e
       /\ -149 <= e
       /\ Zpos m * 2 ^ (e + 512) <= 13841203 * 2 ^ 490.
Proof.
  intros Hv H0 H1.
  unfold F32.leb, f32_3v3, F32.zero in H0, H1.
  destruct x as [s | s | | s m e].
  - left. exists s. reflexivity.
  - destruct s; discriminate.
  - discriminate.
  - right. destruct s; [ discriminate | ].
    exists m, e. split; [ reflexivity | ].
    apply leb_finite_pos in H1.
    unfold F32.valid, valid_binary, bounded, canonical_mantissa in Hv.
    apply andb_true_iff in Hv as [Hc _]. apply Z.eqb_eq in Hc.
    rewrite fexp_eq in Hc.
    pose proof (digits2_pos_bounds m) as [_ Hd].
    set (d := Zpos (digits2_pos m)) in *.
    assert (Hd24 : d <= 24) by lia.
    assert (He : -149 <= e) by lia.
    split; [ exact He | ].
    assert (Hm : Zpos m < 2 ^ 24).
    { apply Z.lt_le_trans with (1 := Hd). apply pow2_le. unfold d. lia. }
    destruct H1 as [E | [E Hm']].
    + assert (Hp : 2 ^ (e + 512) <= 2 ^ 489) by (apply pow2_le; lia).
      pose proof (pow2_pos (e + 512) ltac:(lia)) as Hq.
      replace (2 ^ 490) with (2 * 2 ^ 489)
        by (rewrite <- Z.pow_succ_r by lia; reflexivity).
      assert (H24 : 2 ^ 24 = 16777216) by reflexivity.
      rewrite H24 in Hm. clear - Hp Hq Hm.
      revert Hp Hq. generalize (2 ^ 489). generalize (2 ^ (e + 512)).
      intros a b Hab Ha. nia.
    + subst e. change (-22 + 512) with 490.
      apply Z.mul_le_mono_nonneg_r; [ apply Z.pow_nonneg; lia | exact Hm' ].
Qed.

(* ================================================================= *)
(** * The range of the code *)

Lemma mul_in_range (x y : float32) :
  at_most 13841203 (-22) (-149) x -> at_most 13841203 (-22) (-149) y ->
  at_most 11534336 (-20) (-298) (F32.mul x y).
Proof.
  intros [[sx ->] | (mx & ex & -> & Hex & Hx)]
         [[sy ->] | (my & ey & -> & Hey & Hy)].
  - left. eexists. reflexivity.
  - left. eexists. reflexivity.
  - left. eexists. reflexivity.
  - unfold F32.mul. cbn [SFmul xorb].
    destruct (round_aux_bounded (mx * my) (ex + ey) 11534336 (-20))
      as [E | (m' & e' & E & He' & Hb)]; try lia.
    + change (-22 + 512) with 490 in Hx, Hy. change (-20 + 512) with 492.
      assert (Ex : 2 ^ (ex + 512) * 2 ^ (ey + 512)
                   = 2 ^ (ex + ey + 512) * 2 ^ 512).
      { rewrite <- !Z.pow_add_r by lia. f_equal. lia. }
      assert (Ec : (13841203 * 2 ^ 490) * (13841203 * 2 ^ 490)
                   <= (11534336 * 2 ^ 492) * 2 ^ 512).
      { vm_compute. discriminate. }
      pose proof (pow2_pos (ex + 512) ltac:(lia)) as Px.
      pose proof (pow2_pos (ey + 512) ltac:(lia)) as Py.
      pose proof (pow2_pos (ex + ey + 512) ltac:(lia)) as Pxy.
      assert (P512 : 0 < 2 ^ 512) by (apply pow2_pos; lia).
      assert (Hprod : (Zpos mx * 2 ^ (ex + 512)) * (Zpos my * 2 ^ (ey + 512))
                      <= (13841203 * 2 ^ 490) * (13841203 * 2 ^ 490)).
      { apply Z.mul_le_mono_nonneg; lia. }
      rewrite Pos2Z.inj_mul.
      apply Z.mul_le_mono_pos_r with (p := 2 ^ 512); [ exact P512 | ].
      eapply Z.le_trans; [ | exact Ec ].
      eapply Z.le_trans; [ | exact Hprod ].
      apply Z.eq_le_incl.
      transitivity (Zpos mx * Zpos my * (2 ^ (ex + 512) * 2 ^ (ey + 512)));
        [ rewrite Ex | ]; ring.
    + left. exists false. exact E.
    + right. exists m', e'. repeat split; [ exact E | lia | exact Hb ].
Qed.

Lemma of_int_SCALING_FACTOR :
  F32.of_int SCALING_FACTOR = S754_finite false 12189696 (-15).
Proof. reflexivity. Qed.

Lemma scale_in_range (p : float32) :
  at_most 11534336 (-20) (-298) p ->
  at_most 16760832 (-12) (-313) (F32.mul p (F32.of_int SCALING_FACTOR)).
Proof.
  rewrite of_int_SCALING_FACTOR.
  intros [[s ->] | (m & e & -> & He & Hp)].
  - left. eexists. reflexivity.
  - unfold F32.mul. cbn [SFmul xorb].
    destruct (round_aux_bounded (m * 12189696) (e + -15) 16760832 (-12))
      as [E | (m' & e' & E & He' & Hb)]; try lia.
    + change (-20 + 512) with 492 in Hp. change (-12 + 512) with 500.
      assert (Ex : 2 ^ (e + 512) = 2 ^ (e + -15 + 512) * 2 ^ 15).
      { rewrite <- Z.pow_add_r by lia. f_equal. lia. }
      assert (Ec : 11534336 * 2 ^ 492 * 12189696
                   = 16760832 * 2 ^ 500 * 2 ^ 15) by reflexivity.
      pose proof (pow2_pos (e + -15 + 512) ltac:(lia)) as Pe.
      rewrite Pos2Z.inj_mul.
      apply Z.mul_le_mono_pos_r with (p := 2 ^ 15); [ reflexivity | ].
      rewrite <- Ec.
      transitivity (Zpos m * 2 ^ (e + 512) * 12189696).
      * apply Z.eq_le_incl. rewrite Ex. ring.
      * apply Z.mul_le_mono_nonneg_r; [ lia | exact Hp ].
    + left. exists false. exact E.
    + right. exists m', e'. repeat split; [ exact E | lia | exact Hb ].
Qed.

Lemma to_int_in_range (x : float32) :
  at_most 16760832 (-12) (-313) x ->
  exists c, F32.to_int x = Some c /\ 0 <= c <= 4092.
Proof.
  intros [[s ->] | (m & e & -> & He & Hb)].
  - exists 0. split; [ reflexivity | lia ].
  - cbn [F32.to_int].
    assert (Ha : 0 <= Z.shiftl (Zpos m) e <= 4092).
    { split; [ apply Z.shiftl_nonneg; lia | ].
      change (-12 + 512) with 500 in Hb.
      assert (Ec : 16760832 * 2 ^ 500 = 4092 * 2 ^ 512) by reflexivity.
      rewrite Ec in Hb.
      destruct (Z_le_gt_dec 0 e) as [Hpos | Hneg].
      - rewrite Z.shiftl_mul_pow2 by lia.
        rewrite (pow2_split e 512) in Hb by lia.
        assert (P512 : 0 < 2 ^ 512) by (apply pow2_pos; lia).
        apply Z.mul_le_mono_pos_r with (p := 2 ^ 512); [ exact P512 | ].
        rewrite <- Z.mul_assoc. exact Hb.
      - rewrite Z.shiftl_div_pow2 by lia.
        assert (Pn : 0 < 2 ^ (- e)) by (apply pow2_pos; lia).
        assert (Pe : 0 < 2 ^ (e + 512)) by (apply pow2_pos; lia).
        assert (E512 : 2 ^ 512 = 2 ^ (- e) * 2 ^ (e + 512)).
        { rewrite <- Z.pow_add_r by lia. f_equal. lia. }
        rewrite E512 in Hb.
        assert (Hm : Zpos m <= 4092 * 2 ^ (- e)).
        { apply Z.mul_le_mono_pos_r with (p := 2 ^ (e + 512));
            [ exact Pe | ].
          rewrite <- Z.mul_assoc. exact Hb. }
        apply Z.div_le_upper_bound; [ exact Pn | ].
        rewrite Z.mul_comm. exact Hm. }
    exists (Z.shiftl (Zpos m) e). split; [ | exact Ha ].
    replace ((F32.INT_MIN <=? Z.shiftl (Zpos m) e)
             && (Z.shiftl (Zpos m) e <=? F32.INT_MAX)) with true;
      [ reflexivity | ].
    symmetry. apply andb_true_iff. unfold F32.INT_MIN, F32.INT_MAX.
    split; apply Z.leb_le; lia.
Qed.

(** C1, as the code has it: no clamp is applied; for two voltages in the
    nominal range, from 0 V to 3.3 V, the code handed to the CTDAC is
    defined and lies between 0 and the maximum code 4095. *)
Theorem compute_in_dac_range (physical0 physical1 : float32) :
  F32.valid physical0 = true -> F32.valid physical1 = true ->
  F32.leb F32.zero physical0 = true -> F32.leb physical0 f32_3v3 = true ->
  F32.leb F32.zero physical1 = true -> F32.leb physical1 f32_3v3 = true ->
  exists c, compute physical0 physical1 = Some c /\ 0 <= c <= deviceMaxCode.
Proof.
  intros V0 V1 L0 U0 L1 U1.
  pose proof (in_range_cases _ V0 L0 U0) as H0.
  pose proof (in_range_cases _ V1 L1 U1) as H1.
  destruct (to_int_in_range _ (scale_in_range _ (mul_in_range _ _ H0 H1)))
    as (c & Ec & Hc).
  exists c. split; [ exact Ec | unfold deviceMaxCode; lia ].
Qed.

Lemma compute_in_dac_range_witness :
  exists c, compute f32_3v3 f32_3v3 = Some c /\ 0 <= c <= deviceMaxCode.
Proof.
  apply (compute_in_dac_range f32_3v3 f32_3v3); vm_compute; reflexivity.
Defined.

(** C1 as stated fails: 4.0 V on both inputs gives the code 5952, above
    the maximum code, where the clamp of section 4.5 would give 4095; and
    -1.0 V against 4.0 V gives the negative code -1488. *)
Lemma code_out_of_range :
  F32.valid f32_4v0 = true
  /\ F32.valid f32_minus_1v0 = true
  /\ compute f32_4v0 f32_4v0 = Some 5952
  /\ deviceMaxCode < 5952
  /\ compute_clamped f32_4v0 f32_4v0 = 4095
  /\ compute f32_minus_1v0 f32_4v0 = Some (-1488).
Proof. vm_compute. repeat split. Qed.

(* ================================================================= *)
(** * Further properties of the handlers *)

Lemma handler_vars_hw (P : Pdl) (u : sar_unit) (s : state) :
  pc (handler u s) = pc s
  /\ vars (handler u s) = vars s
  /\ SAR0_RESULT (hw (handler u s)) = SAR0_RESULT (hw s)
  /\ SAR1_RESULT (hw (handler u s)) = SAR1_RESULT (hw s)
  /\ CTDAC_codes (hw (handler u s)) = CTDAC_codes (hw s)
  /\ UART_lines (hw (handler u s)) = UART_lines (hw s)
  /\ UART_busy (hw (handler u s)) = UART_busy (hw s).
Proof.
  destruct u; unfold handler, sar0_interrupt, sar1_interrupt;
    destruct s as [f0 f1 l v h]; destruct h; cbn;
    match goal with |- context [Z.eqb ?a 0] => destruct (Z.eqb a 0) end;
    cbn; repeat split.
Qed.

Lemma handler_other_requests (P : Pdl) (u v : sar_unit) (s : state) :
  v <> u -> SAR_INTR v (hw (handler u s)) = SAR_INTR v (hw s).
Proof.
  intros Hv. destruct u, v; try congruence;
    unfold handler, sar0_interrupt, sar1_interrupt;
    destruct s as [f0 f1 l v h]; destruct h; cbn;
    match goal with |- context [Z.eqb ?a 0] => destruct (Z.eqb a 0) end;
    reflexivity.
Qed.

(** A handler touches nothing but the flag and the interrupt requests of
    its own unit: the place of the loop, the locals of [main], the flag
    and the requests of the other unit, the result registers, the codes
    written and the lines printed are as before. *)
Theorem handler_frame (P : Pdl) (u : sar_unit) (s : state) :
  pc (handler u s) = pc s
  /\ vars (handler u s) = vars s
  /\ (forall v, v <> u ->
        flag v (handler u s) = flag v s
        /\ SAR_INTR v (hw (handler u s)) = SAR_INTR v (hw s))
  /\ SAR0_RESULT (hw (handler u s)) = SAR0_RESULT (hw s)
  /\ SAR1_RESULT (hw (handler u s)) = SAR1_RESULT (hw s)
  /\ CTDAC_codes (hw (handler u s)) = CTDAC_codes (hw s)
  /\ UART_lines (hw (handler u s)) = UART_lines (hw s)
  /\ UART_busy (hw (handler u s)) = UART_busy (hw s).
Proof.
  destruct (handler_vars_hw P u s) as (H1 & H2 & H3 & H4 & H5 & H6 & H7).
  repeat split; try assumption.
  - apply handler_other_flag. congruence.
  - apply handler_other_requests. assumption.
Qed.

Lemma ldiff_idem (x m : Z) : Z.ldiff (Z.ldiff x m) m = Z.ldiff x m.
Proof.
  apply Z.bits_inj'; intros n _.
  rewrite !Z.ldiff_spec.
  destruct (Z.testbit x n), (Z.testbit m n); reflexivity.
Qed.

Lemma land_ldiff_zero (x m e : Z) :
  Z.land x e = 0 -> Z.land (Z.ldiff x m) e = 0.
Proof.
  intros H. apply Z.bits_inj'; intros n Hn.
  pose proof (f_equal (fun z => Z.testbit z n) H) as Hb. cbn beta in Hb.
  rewrite Z.land_spec, Z.bits_0 in Hb.
  rewrite Z.land_spec, Z.ldiff_spec, Z.bits_0.
  destruct (Z.testbit x n), (Z.testbit m n), (Z.testbit e n);
    cbn in *; congruence.
Qed.

(** A handler that runs twice in a row, with no new request in between,
    leaves everything as after its first run: the second run finds the
    requests cleared and the flag as the first run left it. *)
Theorem handler_idempotent (P : Pdl) (u : sar_unit) (s : state) :
  handler u (handler u s) = handler u s.
Proof.
  destruct u; unfold handler, sar0_interrupt, sar1_interrupt,
    Cy_SAR_GetInterruptStatus, Cy_SAR_ClearInterrupt;
    destruct s as [f0 f1 l v h]; destruct h as [i0 i1 r0 r1 cs ls b]; cbn.
  - destruct (Z.eqb_spec (Z.land i0 CY_SAR_INTR_EOS) 0) as [E | E]; cbn.
    + rewrite (land_ldiff_zero _ _ _ E). cbn. rewrite ldiff_idem.
      reflexivity.
    + destruct (Z.eqb _ 0); cbn; rewrite ldiff_idem; reflexivity.
  - destruct (Z.eqb_spec (Z.land i1 CY_SAR_INTR_EOS) 0) as [E | E]; cbn.
    + rewrite (land_ldiff_zero _ _ _ E). cbn. rewrite ldiff_idem.
      reflexivity.
    + destruct (Z.eqb _ 0); cbn; rewrite ldiff_idem; reflexivity.
Qed.

(* ================================================================= *)
(** * Further properties of the loop *)

(** One cycle, from the open gate to the drain, when no interrupt comes in
    between: both flags are cleared, the two result registers are read and
    converted, one code is written and one line printed, both from these
    two voltages, and the UART is busy for the length of the line. *)
Theorem cycle_outputs (P : Pdl) (s : state) :
  pc s = L161 -> sar0_isr_set s = true -> sar1_isr_set s = true ->
  pc (run s (repeat Main 10)) = L158
  /\ sar0_isr_set (run s (repeat Main 10)) = false
  /\ sar1_isr_set (run s (repeat Main 10)) = false
  /\ resultV_0 (vars (run s (repeat Main 10)))
     = Cy_SAR_CountsTo_Volts SAR0 0 (SAR0_RESULT (hw s))
  /\ resultV_1 (vars (run s (repeat Main 10)))
     = Cy_SAR_CountsTo_Volts SAR1 0 (SAR1_RESULT (hw s))
  /\ CTDAC_codes (hw (run s (repeat Main 10)))
     = compute (Cy_SAR_CountsTo_Volts SAR0 0 (SAR0_RESULT (hw s)))
         (Cy_SAR_CountsTo_Volts SAR1 0 (SAR1_RESULT (hw s)))
       :: CTDAC_codes (hw s)
  /\ UART_lines (hw (run s (repeat Main 10)))
     = telemetry_line (Cy_SAR_CountsTo_Volts SAR0 0 (SAR0_RESULT (hw s)))
         (Cy_SAR_CountsTo_Volts SAR1 0 (SAR1_RESULT (hw s)))
       :: UART_lines (hw s)
  /\ UART_busy (hw (run s (repeat Main 10)))
     = (UART_busy (hw s)
        + String.length
            (telemetry_line
               (Cy_SAR_CountsTo_Volts SAR0 0 (SAR0_RESULT (hw s)))
               (Cy_SAR_CountsTo_Volts SAR1 0 (SAR1_RESULT (hw s)))))%nat.
Proof.
  intros Hpc H0 H1. destruct s as [f0 f1 l v h]; destruct h.
  cbn in Hpc, H0, H1. subst.
  cbn. repeat split.
Qed.

Lemma cycle_outputs_witness :
  pc both_signalled = L161
  /\ sar0_isr_set both_signalled = true
  /\ sar1_isr_set both_signalled = true
  /\ pc (@run psoc6 both_signalled (repeat Main 10)) = L158
  /\ sar0_isr_set (@run psoc6 both_signalled (repeat Main 10)) = false
  /\ sar1_isr_set (@run psoc6 both_signalled (repeat Main 10)) = false.
Proof.
  destruct (@cycle_outputs psoc6 both_signalled eq_refl eq_refl eq_refl)
    as (H1 & H2 & H3 & _).
  repeat split; assumption.
Defined.

Section Invariants.

Context {P : Pdl}.

Lemma irq_vars_hw (u : sar_unit) (cause counts : Z) (s : state) :
  vars (step s (Irq u cause counts)) = vars s
  /\ CTDAC_codes (hw (step s (Irq u cause counts))) = CTDAC_codes (hw s)
  /\ UART_lines (hw (step s (Irq u cause counts))) = UART_lines (hw s)
  /\ UART_busy (hw (step s (Irq u cause counts))) = UART_busy (hw s).
Proof.
  cbn [step].
  destruct (handler_vars_hw P u (raise u cause counts s))
    as (_ & Hv & _ & _ & Hc & Hl & Hb).
  assert (Hw : forall t, vars (wake t) = vars t /\ hw (wake t) = hw t)
    by (intros t; unfold wake; destruct (pc t); auto).
  destruct (Hw (handler u (raise u cause counts s))) as [-> ->].
  rewrite Hv, Hc, Hl, Hb. destruct u; auto.
Qed.

Lemma irq_keeps_place (u : sar_unit) (cause counts : Z) (s : state)
  (l : label) :
  l <> L161 -> l <> WFI ->
  (pc (step s (Irq u cause counts)) = l <-> pc s = l).
Proof.
  intros H161 Hwfi. rewrite irq_pc. unfold wake.
  destruct s as [f0 f1 [] v h]; cbn; split; congruence.
Qed.

Lemma outputs_inv_step (s : state) (e : event) :
  outputs_inv s -> outputs_inv (step s e).
Proof.
  intros (I1 & I4 & In4). destruct e as [ | u cause counts].
  - unfold step, main_step, outputs_inv, cyhal_uart_is_tx_active.
    destruct s as [f0 f1 [] v h]; destruct h; cbn in *;
      repeat match goal with
             | |- context [if ?b then _ else _] => destruct b
             end;
      cbn;
      repeat split; try discriminate; try congruence;
      try (intros _; apply In4; discriminate).
    + (* line 181 *)
      intros _. eexists. split; [ | apply In4; discriminate ].
      unfold compute. rewrite <- I1 by reflexivity. reflexivity.
    + (* line 184 *)
      intros _. destruct (I4 eq_refl) as (codes & -> & Hp).
      constructor; [ | exact Hp ].
      eexists _, _. split; reflexivity.
  - destruct (irq_vars_hw u cause counts s) as (Hv & Hc & Hl & _).
    unfold outputs_inv. rewrite Hv, Hc, Hl.
    repeat split.
    + intros H. apply I1. apply (irq_keeps_place u cause counts s L181);
        [ discriminate | discriminate | exact H ].
    + intros H. apply I4. apply (irq_keeps_place u cause counts s L184);
        [ discriminate | discriminate | exact H ].
    + intros H. apply In4. intros H4. apply H.
      apply (irq_keeps_place u cause counts s L184);
        [ discriminate | discriminate | exact H4 ].
Qed.

Lemma outputs_inv_run (evs : list event) :
  forall s, outputs_inv s -> outputs_inv (run s evs).
Proof.
  induction evs as [ | e evs IH]; intros s I; cbn.
  - exact I.
  - apply IH, outputs_inv_step, I.
Qed.

Lemma outputs_inv_boot : outputs_inv boot.
Proof.
  repeat split; cbn; try discriminate. intros _. constructor.
Qed.

(** Under every interleaving of the loop with the interrupts, the codes
    written to the CTDAC and the lines printed go in pairs: each line
    prints the two voltages from which the code of the same cycle was
    computed; between line 181 and line 184 the latest code is the one of
    the voltages about to be printed. *)
Theorem code_and_line_of_same_voltages (evs : list event) :
  (pc (run boot evs) <> L184 ->
   paired (CTDAC_codes (hw (run boot evs))) (UART_lines (hw (run boot evs))))
  /\ (pc (run boot evs) = L184 ->
      exists codes,
        CTDAC_codes (hw (run boot evs))
        = compute (resultV_0 (vars (run boot evs)))
            (resultV_1 (vars (run boot evs))) :: codes
        /\ paired codes (UART_lines (hw (run boot evs)))).
Proof.
  destruct (outputs_inv_run evs boot outputs_inv_boot) as (_ & I4 & In4).
  split; assumption.
Qed.

Lemma idle_inv_step (s : state) (e : event) :
  idle_inv s -> idle_inv (step s e).
Proof.
  unfold idle_inv. intros I. destruct e as [ | u cause counts].
  - unfold step, main_step, cyhal_uart_is_tx_active.
    destruct s as [f0 f1 [] v h]; destruct h as [i0 i1 r0 r1 cs ls busy];
      cbn in *; try (intros _; apply I; discriminate).
    + destruct (Nat.eqb_spec busy 0); cbn; congruence.
    + destruct (negb (f0 && f1)); cbn; intros _; apply I; discriminate.
    + congruence.
  - destruct (irq_vars_hw u cause counts s) as (_ & _ & _ & ->).
    intros H. apply I. intros H8. apply H.
    apply (irq_keeps_place u cause counts s L158);
      [ discriminate | discriminate | exact H8 ].
Qed.

(** The UART is idle whenever control is outside the drain of line 158:
    [printf] is never called while the previous line is still being
    sent. *)
Theorem uart_idle_outside_drain (evs : list event) :
  pc (run boot evs) <> L158 -> UART_busy (hw (run boot evs)) = 0%nat.
Proof.
  change (idle_inv (run boot evs)).
  generalize boot (ltac:(intros H; exfalso; apply H; reflexivity)
                   : idle_inv boot).
  induction evs as [ | e evs IH]; intros s I; cbn.
  - exact I.
  - apply IH, idle_inv_step, I.
Qed.

End Invariants.

Lemma uart_idle_outside_drain_witness :
  pc (@run psoc6 boot
        ([Main; Main; Main; @Eos psoc6 SAR0 1241; @Eos psoc6 SAR1 2482]
         ++ repeat Main 60)) <> L158
  /\ UART_busy
       (hw (@run psoc6 boot
              ([Main; Main; Main; @Eos psoc6 SAR0 1241; @Eos psoc6 SAR1 2482]
               ++ repeat Main 60))) = 0%nat.
Proof.
  assert (H : pc (@run psoc6 boot
                    ([Main; Main; Main; @Eos psoc6 SAR0 1241;
                      @Eos psoc6 SAR1 2482] ++ repeat Main 60)) <> L158)
    by (vm_compute; discriminate).
  split; [ exact H | ].
  exact (@uart_idle_outside_drain psoc6 _ H).
Defined.

Section Wakeup.

Context {P : Pdl}.

Lemma halted_stays (n : nat) (s : state) :
  pc s = WFI -> run s (repeat Main n) = s.
Proof.
  intros Hpc. induction n as [ | n IH]; cbn.
  - reflexivity.
  - replace (main_step s) with s; [ exact IH | ].
    unfold main_step. rewrite Hpc. reflexivity.
Qed.

(** The wake-up can be missed: when the completion signal that sets the
    second flag is taken after the test of line 161 has failed and before
    the processor halts at line 163, the processor halts all the same, with
    both flags set, and processes nothing however long it is left alone;
    the next interrupt of either unit, whatever its cause, wakes it and
    the gate opens. *)
Theorem signal_before_halt_does_not_wake (s : state) (u : sar_unit)
  (counts : Z) (n : nat) :
  pc s = L163 ->
  (forall v, v <> u -> flag v s = true) ->
  pc (run (step s (Eos u counts)) (repeat Main (S n))) = WFI
  /\ sar0_isr_set (run (step s (Eos u counts)) (repeat Main (S n))) = true
  /\ sar1_isr_set (run (step s (Eos u counts)) (repeat Main (S n))) = true
  /\ cycles (run (step s (Eos u counts)) (repeat Main (S n))) = cycles s
  /\ forall w cause c,
       pc (run (run (step s (Eos u counts)) (repeat Main (S n)))
             [Irq w cause c; Main]) = L167.
Proof.
  intros Hpc Hother.
  set (s1 := step s (Eos u counts)).
  assert (Hpc1 : pc s1 = L163).
  { unfold s1, Eos. rewrite irq_pc. unfold wake. rewrite Hpc. exact Hpc. }
  assert (Hf : sar0_isr_set s1 = true /\ sar1_isr_set s1 = true).
  { destruct u.
    - split; [ exact (eos_sets_flag SAR0 counts s) | ].
      change (flag SAR1 s1 = true). unfold s1.
      rewrite eos_other_flag by discriminate.
      apply Hother. discriminate.
    - split; [ | exact (eos_sets_flag SAR1 counts s) ].
      change (flag SAR0 s1 = true). unfold s1.
      rewrite eos_other_flag by discriminate.
      apply Hother. discriminate. }
  assert (Hc : cycles s1 = cycles s) by apply irq_cycles.
  destruct Hf as [Hf0 Hf1].
  change (run s1 (repeat Main (S n)))
    with (run (main_step s1) (repeat Main n)).
  assert (Hm : main_step s1 = goto WFI s1)
    by (unfold main_step; rewrite Hpc1; reflexivity).
  rewrite Hm, halted_stays by reflexivity.
  repeat split; try assumption.
  intros w cause c.
  change (run (goto WFI s1) [Irq w cause c; Main])
    with (main_step (step (goto WFI s1) (Irq w cause c))).
  set (s2 := step (goto WFI s1) (Irq w cause c)).
  assert (Hpc2 : pc s2 = L161) by (unfold s2; rewrite irq_pc; reflexivity).
  assert (H0 : sar0_isr_set s2 = true)
    by (apply (irq_flag_kept w SAR0); exact Hf0).
  assert (H1 : sar1_isr_set s2 = true)
    by (apply (irq_flag_kept w SAR1); exact Hf1).
  unfold main_step. rewrite Hpc2, H0, H1. reflexivity.
Qed.

End Wakeup.

Lemma signal_before_halt_does_not_wake_witness :
  pc about_to_halt = L163
  /\ (forall v, v <> SAR0 -> flag v about_to_halt = true)
  /\ pc (@run psoc6 (@step psoc6 about_to_halt (@Eos psoc6 SAR0 1241))
           (repeat Main 6)) = WFI
  /\ sar0_isr_set
       (@run psoc6 (@step psoc6 about_to_halt (@Eos psoc6 SAR0 1241))
          (repeat Main 6)) = true
  /\ sar1_isr_set
       (@run psoc6 (@step psoc6 about_to_halt (@Eos psoc6 SAR0 1241))
          (repeat Main 6)) = true.
Proof.
  assert (H : forall v, v <> SAR0 -> flag v about_to_halt = true)
    by (intros [ | ] Hv; [ contradiction Hv | ]; reflexivity).
  destruct (@signal_before_halt_does_not_wake psoc6 about_to_halt SAR0 1241
              5%nat eq_refl H) as (H1 & H2 & H3 & _).
  repeat split; assumption.
Defined.

(** ** Result sets are not processed twice *)

Lemma bursts_with_cons (u : sar_unit) (b : list sar_unit)
  (bs : list (list sar_unit)) :
  bursts_with u (b :: bs)
  = (Nat.b2n (existsb (is_unit u) b) + bursts_with u bs)%nat.
Proof.
  unfold bursts_with. cbn [filter].
  destruct (existsb (is_unit u) b); reflexivity.
Qed.

Lemma gate_spec_bound (u : sar_unit) (bs : list (list sar_unit)) :
  forall ready0 ready1,
    (list_sum (gate_spec ready0 ready1 bs)
     <= Nat.b2n (match u with SAR0 => ready0 | SAR1 => ready1 end)
        + bursts_with u bs)%nat
    /\ Forall (fun n => (n <= 1)%nat) (gate_spec ready0 ready1 bs).
Proof.
  induction bs as [ | b bs IH]; intros ready0 ready1.
  - cbn. split; [ lia | constructor ].
  - cbn [gate_spec]. cbv zeta. rewrite bursts_with_cons.
    destruct ((ready0 || existsb (is_unit SAR0) b)
              && (ready1 || existsb (is_unit SAR1) b)) eqn:E.
    + destruct (IH false false) as [Hs Hf].
      split; [ | constructor; [ lia | exact Hf ] ].
      unfold list_sum in *. cbn [fold_right].
      destruct u, ready0, ready1, (existsb (is_unit SAR0) b),
        (existsb (is_unit SAR1) b);
        cbn [orb andb Nat.b2n] in *; try discriminate E; lia.
    + destruct (IH (ready0 || existsb (is_unit SAR0) b)
                   (ready1 || existsb (is_unit SAR1) b)) as [Hs Hf].
      split; [ | constructor; [ lia | exact Hf ] ].
      unfold list_sum in *. cbn [fold_right].
      destruct u, ready0, ready1, (existsb (is_unit SAR0) b),
        (existsb (is_unit SAR1) b);
        cbn [orb andb Nat.b2n] in *; try discriminate E; lia.
Qed.

(** No result set is processed twice: for signals delivered to the halted
    processor, each burst makes the loop process at most one result set,
    and the number of result sets processed never exceeds, for either
    unit, the number of bursts in which that unit has signalled (plus one
    if its flag was already set). *)
Theorem no_double_processing (P : Pdl) (fuel : nat)
  (bs : list (list (sar_unit * Z))) (s s' : state) (opens : list nat)
  (u : sar_unit) :
  pc s = WFI -> sar0_isr_set s && sar1_isr_set s = false ->
  deliver fuel bs s = Some (opens, s') ->
  Forall (fun n => (n <= 1)%nat) opens
  /\ (list_sum opens
      <= Nat.b2n (flag u s) + bursts_with u (map (map fst) bs))%nat.
Proof.
  intros Hpc Hf Hd.
  destruct (deliver_refines_gate bs s Hpc Hf) as (fuel0 & s0 & Hd0 & _).
  apply (deliver_mono fuel (Nat.max fuel fuel0)) in Hd; [ | lia ].
  apply (deliver_mono fuel0 (Nat.max fuel fuel0)) in Hd0; [ | lia ].
  rewrite Hd in Hd0. injection Hd0 as -> _.
  destruct (gate_spec_bound u (map (map fst) bs)
              (sar0_isr_set s) (sar1_isr_set s)) as [Hs Hall].
  split; [ exact Hall | ].
  destruct u; exact Hs.
Qed.

Lemma no_double_processing_witness :
  Forall (fun n => (n <= 1)%nat) [0; 1; 1; 0; 0; 1]%nat
  /\ (list_sum [0; 1; 1; 0; 0; 1]
      <= Nat.b2n (flag SAR0 first_halt)
         + bursts_with SAR0
             [[SAR0]; [SAR1]; [SAR1; SAR0]; [SAR1]; [SAR1]; [SAR0]])%nat.
Proof.
  eapply (@no_double_processing psoc6 100%nat
            [[(SAR0, 1241)]; [(SAR1, 2482)]; [(SAR1, 5); (SAR0, 6)];
             [(SAR1, 7)]; [(SAR1, 7)]; [(SAR0, 7)]]
            first_halt _ [0; 1; 1; 0; 0; 1]%nat SAR0 eq_refl eq_refl).
  vm_compute. reflexivity.
Defined.

(** ** The loop comes to rest *)

Section Progress.

Context {P : Pdl}.

Lemma drain_steps (n : nat) :
  forall s,
    pc s = L158 -> UART_busy (hw s) = n ->
    exists s1,
      pc s1 = L161
      /\ sar0_isr_set s1 = sar0_isr_set s
      /\ sar1_isr_set s1 = sar1_isr_set s
      /\ cycles s1 = cycles s
      /\ forall k, run_to_sleep (S n + k) s = run_to_sleep k s1.
Proof.
  induction n as [ | n IH]; intros s Hpc Hn.
  - destruct s as [f0 f1 l v h]; destruct h; cbn in *. subst.
    eexists. repeat split; try reflexivity.
  - destruct (IH (set_hw (with_busy n (hw s)) s))
      as (s1 & H1 & H2 & H3 & H4 & H5);
      try assumption; try reflexivity.
    exists s1. repeat split; try assumption.
    intros k. rewrite <- H5.
    destruct s as [f0 f1 l v h]; destruct h; cbn in *. subst. reflexivity.
Qed.

Lemma from_gate (s : state) :
  pc s = L161 ->
  exists fuel s',
    run_to_sleep fuel s = Some s' /\ pc s' = WFI
    /\ (cycles s' <= S (cycles s))%nat.
Proof.
  intros Hpc.
  destruct (sar0_isr_set s && sar1_isr_set s) eqn:Hf.
  - apply andb_prop in Hf. destruct Hf as [H0 H1].
    destruct (gate_open s Hpc H0 H1) as (fuel & s' & Hr & Hp & _ & _ & Hc).
    exists fuel, s'. repeat split; try assumption. lia.
  - exists 3%nat, (goto WFI s). split; [ apply gate_closed; assumption | ].
    split; [ reflexivity | ]. unfold cycles. cbn. lia.
Qed.

Lemma from_drain (s : state) :
  pc s = L158 ->
  exists fuel s',
    run_to_sleep fuel s = Some s' /\ pc s' = WFI
    /\ (cycles s' <= S (cycles s))%nat.
Proof.
  intros Hpc.
  destruct (drain_steps _ s Hpc eq_refl) as (s1 & H1 & _ & _ & Hc & Hk).
  destruct (from_gate s1 H1) as (fuel & s' & Hr & Hp & Hc').
  exists (S (UART_busy (hw s)) + fuel)%nat, s'.
  rewrite Hk. repeat split; try assumption. lia.
Qed.

Lemma to_drain (s : state) :
  statements_to_drain (pc s) <> 0%nat ->
  (forall k,
      run_to_sleep (statements_to_drain (pc s) + k) s
      = run_to_sleep k (Nat.iter (statements_to_drain (pc s)) main_step s))
  /\ pc (Nat.iter (statements_to_drain (pc s)) main_step s) = L158
  /\ (cycles (Nat.iter (statements_to_drain (pc s)) main_step s)
      <= S (cycles s))%nat.
Proof.
  intros Hn. destruct s as [f0 f1 l v h]; destruct h.
  destruct l; cbn [pc statements_to_drain] in *; try congruence;
    (split;
     [ intros k; apply run_to_sleep_steps; intros i Hi;
       do 9 (destruct i as [ | i];
             [ first [ exfalso; lia | cbn; discriminate ] | ]);
       lia
     | split; [ reflexivity | unfold cycles; cbn; lia ] ]).
Qed.

(** Left alone, the loop comes to rest: from every place of the loop and
    whatever the flags, when no further interrupt is taken the processor
    halts at line 163 after finitely many statements, and it has then
    processed at most two more result sets (at most one more when it
    started in the drain, at the test of line 161 or at line 163). *)
Theorem loop_halts_when_left_alone (s : state) :
  exists fuel s',
    run_to_sleep fuel s = Some s' /\ pc s' = WFI
    /\ (cycles s' <= cycles s + 2)%nat
    /\ (statements_to_drain (pc s) = 0%nat ->
        (cycles s' <= cycles s + 1)%nat).
Proof.
  destruct (Nat.eq_dec (statements_to_drain (pc s)) 0) as [E | E].
  - assert (H : exists fuel s',
               run_to_sleep fuel s = Some s' /\ pc s' = WFI
               /\ (cycles s' <= S (cycles s))%nat).
    { destruct (pc s) eqn:Hpc; try discriminate E.
      - apply from_drain, Hpc.
      - apply from_gate, Hpc.
      - exists 2%nat, (goto WFI s).
        split;
          [ cbn; rewrite Hpc; unfold main_step; rewrite Hpc; reflexivity | ].
        split; [ reflexivity | unfold cycles; cbn; lia ].
      - exists 1%nat, s.
        split; [ cbn; rewrite Hpc; reflexivity | ].
        split; [ exact Hpc | lia ]. }
    destruct H as (fuel & s' & Hr & Hp & Hc).
    exists fuel, s'. repeat split; try assumption; lia.
  - destruct (to_drain s E) as (Hk & Hp & Hc).
    destruct (from_drain _ Hp) as (fuel & s' & Hr & Hp' & Hc').
    exists (statements_to_drain (pc s) + fuel)%nat, s'.
    rewrite Hk. repeat split; try assumption; try lia.
Qed.

End Progress.

(* ================================================================= *)
(** * Further properties of the code written to the CTDAC *)

Lemma mul_comm (a b : float32) : F32.mul a b = F32.mul b a.
Proof.
  unfold F32.mul.
  destruct a as [sa | sa | | sa ma ea], b as [sb | sb | | sb mb eb];
    cbn [SFmul]; rewrite ?(xorb_comm sa sb); try reflexivity.
  rewrite (Pos.mul_comm ma mb), (Z.add_comm ea eb). reflexivity.
Qed.

(** The code does not depend on which unit delivers which voltage. *)
Theorem compute_comm (resultV_0 resultV_1 : float32) :
  compute resultV_0 resultV_1 = compute resultV_1 resultV_0.
Proof. unfold compute. rewrite mul_comm. reflexivity. Qed.

Lemma round_aux_sign (s : bool) (m e : Z) (l : location) :
  binary_round_aux F32.prec F32.emax s m e l = S754_nan
  \/ sign_bit (binary_round_aux F32.prec F32.emax s m e l) = s.
Proof.
  unfold binary_round_aux.
  destruct (shr_fexp _ _ m e l) as [mrs' e'].
  destruct (shr_fexp _ _ _ e' loc_Exact) as [mrs'' e''].
  destruct (shr_m mrs'') as [ | p | p]; [ right | | left ]; try reflexivity.
  destruct (e'' <=? F32.emax - F32.prec); right; reflexivity.
Qed.

Lemma mul_sign (a b : float32) :
  F32.mul a b = S754_nan
  \/ sign_bit (F32.mul a b) = xorb (sign_bit a) (sign_bit b).
Proof.
  unfold F32.mul.
  destruct a as [sa | sa | | sa ma ea], b as [sb | sb | | sb mb eb];
    cbn [SFmul sign_bit]; auto.
  apply round_aux_sign.
Qed.

Lemma to_int_sign (x : float32) (c : Z) :
  F32.to_int x = Some c -> if sign_bit x then c <= 0 else 0 <= c.
Proof.
  destruct x as [s | s | | s m e]; cbn [F32.to_int sign_bit];
    try discriminate.
  - intros [= <-]. destruct s; lia.
  - pose proof (Z.shiftl_nonneg (Zpos m) e) as [_ H].
    specialize (H ltac:(lia)).
    destruct (_ && _); [ | discriminate ]. intros [= <-].
    destruct s; lia.
Qed.

(** Whenever the code is defined, its sign is the product of the signs of
    the two voltages: never negative for two voltages of the same sign,
    never positive for two of opposite signs. *)
Theorem code_sign (resultV_0 resultV_1 : float32) (c : Z) :
  compute resultV_0 resultV_1 = Some c ->
  if xorb (sign_bit resultV_0) (sign_bit resultV_1) then c <= 0 else 0 <= c.
Proof.
  unfold compute, scaled_code. intros H.
  pose proof (to_int_sign _ _ H) as Hs.
  destruct (mul_sign (F32.mul resultV_0 resultV_1)
              (F32.of_int SCALING_FACTOR)) as [E | E].
  - rewrite E in H. discriminate.
  - rewrite E in Hs.
    change (sign_bit (F32.of_int SCALING_FACTOR)) with false in Hs.
    rewrite xorb_false_r in Hs.
    destruct (mul_sign resultV_0 resultV_1) as [E' | E'].
    + rewrite E' in H. discriminate.
    + rewrite E' in Hs. exact Hs.
Qed.

Lemma code_sign_witness :
  compute f32_minus_1v0 f32_4v0 = Some (-1488) /\ -1488 <= 0.
Proof.
  assert (H : compute f32_minus_1v0 f32_4v0 = Some (-1488))
    by (vm_compute; reflexivity).
  split; [ exact H | ].
  exact (code_sign f32_minus_1v0 f32_4v0 (-1488) H).
Defined.

Lemma mul_not_finite (a b : float32) :
  F32.is_finite a = false -> b <> S754_nan ->
  F32.is_finite (F32.mul a b) = false /\ F32.is_finite (F32.mul b a) = false.
Proof.
  unfold F32.mul.
  destruct a as [sa | sa | | sa ma ea]; try discriminate; intros _ Hb;
    destruct b as [sb | sb | | sb mb eb]; try congruence; cbn; auto.
Qed.

Lemma mul_nan (a : float32) :
  F32.mul S754_nan a = S754_nan /\ F32.mul a S754_nan = S754_nan.
Proof. unfold F32.mul. destruct a; cbn; auto. Qed.

Lemma scaled_code_not_finite (x : float32) :
  F32.is_finite x = false -> scaled_code x = None.
Proof.
  intros H. unfold scaled_code.
  assert (Hs : F32.of_int SCALING_FACTOR <> S754_nan)
    by (rewrite of_int_SCALING_FACTOR; discriminate).
  destruct (mul_not_finite x _ H Hs) as [Hm _].
  destruct (F32.mul x (F32.of_int SCALING_FACTOR)); try discriminate;
    reflexivity.
Qed.

(** When one of the two voltages is an infinity or a NaN, the conversion
    of line 181 is undefined whatever the other voltage is: the product is
    an infinity or a NaN, and stays one when scaled. *)
Theorem code_undefined_for_non_finite (resultV_0 resultV_1 : float32) :
  F32.is_finite resultV_0 = false \/ F32.is_finite resultV_1 = false ->
  compute resultV_0 resultV_1 = None.
Proof.
  intros H. unfold compute. apply scaled_code_not_finite.
  destruct resultV_0 as [s0 | s0 | | s0 m0 e0],
           resultV_1 as [s1 | s1 | | s1 m1 e1];
    destruct H as [H | H]; try discriminate H; reflexivity.
Qed.

Lemma code_undefined_for_non_finite_witness :
  compute (S754_infinity false) f32_3v3 = None.
Proof.
  apply (code_undefined_for_non_finite (S754_infinity false) f32_3v3).
  left. reflexivity.
Defined.

(* ================================================================= *)
(** * Start-up: [main] before its loop and [init_analog_resources] *)

Lemma checked_step (c : call) (pf : platform) (made : list call) :
  checked c pf made
  = (made ++ [c],
     if returns_success pf c || NDEBUG pf then Some tt else None).
Proof.
  unfold checked, startup_bind, invoke, startup_ret, CY_ASSERT.
  destruct (returns_success pf c); reflexivity.
Qed.

Lemma unchecked_step (c : call) (pf : platform) (made : list call) :
  unchecked c pf made = (made ++ [c], Some tt).
Proof. reflexivity. Qed.

Lemma perform_cons (c : call) (chk : bool) (script : list (call * bool))
  (pf : platform) (made : list call) :
  perform ((c, chk) :: script) pf made
  = if negb chk || returns_success pf c || NDEBUG pf
    then perform script pf (made ++ [c])
    else (made ++ [c], None).
Proof.
  destruct chk; cbn [perform negb orb]; unfold startup_bind.
  - rewrite checked_step.
    destruct (returns_success pf c || NDEBUG pf); reflexivity.
  - rewrite unchecked_step. reflexivity.
Qed.

Lemma perform_app (a b : list (call * bool)) (pf : platform) :
  forall made,
    perform (a ++ b) pf made = (perform a ;; perform b) pf made.
Proof.
  induction a as [ | [c chk] a IH]; intros made.
  - reflexivity.
  - cbn [app]. unfold startup_bind at 1. rewrite !perform_cons.
    destruct (negb chk || returns_success pf c || NDEBUG pf).
    + rewrite IH. reflexivity.
    + reflexivity.
Qed.

Lemma print_all_perform (texts : list string) (pf : platform) :
  forall made,
    print_all texts pf made
    = perform (map (fun t => (Printf t, false)) texts) pf made.
Proof.
  induction texts as [ | t texts IH]; intros made.
  - reflexivity.
  - cbn [print_all map perform]. unfold startup_bind.
    rewrite unchecked_step. apply IH.
Qed.

Lemma init_analog_resources_script (P : Pdl) (pf : platform)
  (made : list call) :
  init_analog_resources pf made = perform analog_script pf made.
Proof. reflexivity. Qed.

Lemma bind_eq (a a' k k' : startup unit) (pf : platform)
  (made : list call) :
  a pf made = a' pf made -> (forall m, k pf m = k' pf m) ->
  (a ;; k) pf made = (a' ;; k') pf made.
Proof.
  intros Ha Hk. unfold startup_bind. rewrite Ha.
  destruct (a' pf made) as [m [[] | ]]; [ apply Hk | reflexivity ].
Qed.

Lemma main_startup_script (P : Pdl) (pf : platform) (made : list call) :
  main_startup pf made = perform main_script pf made.
Proof.
  unfold main_startup, main_script. cbn [app perform].
  apply bind_eq; [ reflexivity | intros m1 ].
  apply bind_eq; [ reflexivity | intros m2 ].
  rewrite perform_app.
  apply bind_eq; [ apply print_all_perform | intros m3 ].
  rewrite perform_app.
  apply bind_eq; [ reflexivity | intros m4 ].
  reflexivity.
Qed.

(** *** Scripts in general *)

Lemma perform_all (script : list (call * bool)) (pf : platform) :
  forall made,
    (forall c, In (c, true) script ->
               returns_success pf c || NDEBUG pf = true) ->
    perform script pf made = (made ++ map fst script, Some tt).
Proof.
  induction script as [ | [c chk] script IH]; intros made Hok.
  - cbn. rewrite app_nil_r. reflexivity.
  - rewrite perform_cons.
    assert (Hc : negb chk || returns_success pf c || NDEBUG pf = true).
    { destruct chk; cbn [negb orb]; [ | reflexivity ].
      apply Hok. left. reflexivity. }
    rewrite Hc, IH by (intros c' Hc'; apply Hok; right; exact Hc').
    cbn [map fst]. rewrite <- app_assoc. reflexivity.
Qed.

Lemma perform_first_failure (pre post : list (call * bool)) (c : call)
  (pf : platform) :
  NDEBUG pf = false ->
  (forall c', In (c', true) pre -> returns_success pf c' = true) ->
  returns_success pf c = false ->
  forall made,
    perform (pre ++ (c, true) :: post) pf made
    = (made ++ map fst pre ++ [c], None).
Proof.
  intros Hnd Hpre Hc made.
  rewrite perform_app. unfold startup_bind.
  rewrite perform_all.
  - rewrite perform_cons, Hc, Hnd. cbn [negb orb].
    rewrite <- app_assoc. reflexivity.
  - intros c' Hc'. rewrite (Hpre c' Hc'). reflexivity.
Qed.

Lemma perform_returns (script : list (call * bool)) (pf : platform) :
  NDEBUG pf = false ->
  forall made,
    snd (perform script pf made) = Some tt ->
    forall c, In (c, true) script -> returns_success pf c = true.
Proof.
  intros Hnd. induction script as [ | [c chk] script IH];
    intros made Hret c' Hin.
  - destruct Hin.
  - rewrite perform_cons, Hnd, orb_false_r in Hret.
    destruct Hin as [[= -> ->] | Hin].
    + cbn [negb orb] in Hret.
      destruct (returns_success pf c'); [ reflexivity | discriminate ].
    + destruct (negb chk || returns_success pf c); [ | discriminate ].
      exact (IH _ Hret c' Hin).
Qed.

Lemma perform_depends (script : list (call * bool)) (pf pf' : platform) :
  NDEBUG pf = NDEBUG pf' ->
  (forall c, In (c, true) script ->
             returns_success pf c = returns_success pf' c) ->
  forall made, perform script pf made = perform script pf' made.
Proof.
  intros Hnd. induction script as [ | [c chk] script IH];
    intros Hsame made.
  - reflexivity.
  - rewrite !perform_cons, <- Hnd.
    assert (Hc : negb chk || returns_success pf c
                 = negb chk || returns_success pf' c).
    { destruct chk; cbn [negb orb]; [ | reflexivity ].
      apply Hsame. left. reflexivity. }
    rewrite Hc, IH by (intros c' Hc'; apply Hsame; right; exact Hc').
    reflexivity.
Qed.

(** The calls made are the first [k] of the script; all of them when the
    script returns, and up to a checked call that failed when it halts. *)
Lemma perform_shape (script : list (call * bool)) (pf : platform) :
  forall made,
  exists k,
    fst (perform script pf made) = made ++ map fst (firstn k script)
    /\ (snd (perform script pf made) = None ->
        exists c, nth_error script (Nat.pred k) = Some (c, true)
                  /\ (1 <= k)%nat).
Proof.
  induction script as [ | [c chk] script IH]; intros made.
  - exists 0%nat. cbn. rewrite app_nil_r. split; [ reflexivity | discriminate ].
  - rewrite perform_cons.
    destruct (negb chk || returns_success pf c || NDEBUG pf) eqn:E.
    + destruct (IH (made ++ [c])) as (k & Hk & Hh).
      exists (S k). split.
      * rewrite Hk. cbn [firstn map fst]. rewrite <- app_assoc. reflexivity.
      * intros Hn. destruct (Hh Hn) as (c' & Hc' & Hk1).
        exists c'. destruct k as [ | k]; [ lia | ].
        split; [ exact Hc' | lia ].
    + exists 1%nat. split; [ reflexivity | ].
      intros _. exists c. destruct chk; [ | discriminate E ].
      split; [ reflexivity | lia ].
Qed.

Lemma precedes_prefix (l : list call) (k : nat) (c1 c2 : call) :
  precedes l c1 c2 -> precedes (firstn k l) c1 c2.
Proof.
  intros H i Hi.
  assert (Hik : (i < k)%nat).
  { destruct (Nat.lt_ge_cases i k) as [ | Hge]; [ assumption | ].
    assert (Hnone : nth_error (firstn k l) i = None).
    { apply nth_error_None. rewrite length_firstn. lia. }
    congruence. }
  rewrite nth_error_firstn in Hi.
  destruct (Nat.ltb_spec i k); [ | lia ].
  destruct (H i Hi) as (j & Hj & Ej).
  exists j. split; [ exact Hj | ].
  rewrite nth_error_firstn.
  destruct (Nat.ltb_spec j k); [ exact Ej | lia ].
Qed.

(** ** [init_analog_resources] and [main] *)

Lemma checked_in_main_script (P : Pdl) (c : call) :
  In (c, true) main_script <-> In c checked_calls.
Proof.
  unfold main_script, analog_script, banner, checked_calls.
  cbn [map app In]. split; intros H.
  - repeat (destruct H as [H | H];
            [ first [ discriminate H
                    | injection H as <-; cbn; tauto ] | ]).
    destruct H.
  - repeat (destruct H as [H | H]; [ subst c; tauto | ]). destruct H.
Qed.

Lemma checked_in_analog_script (P : Pdl) (c : call) :
  In (c, true) analog_script
  <-> In c [ Cy_SysAnalog_Init; Cy_SAR_CommonInit; Cy_SAR_Init SAR0;
             Cy_SAR_Init SAR1; Cy_CTB_OpampInit; Cy_CTDAC_Init;
             Cy_TCPWM_Counter_Init TCPWM_CNT_NUM ].
Proof.
  unfold analog_script. cbn [In]. split; intros H.
  - repeat (destruct H as [H | H];
            [ first [ discriminate H
                    | injection H as <-; cbn; tauto ] | ]).
    destruct H.
  - repeat (destruct H as [H | H]; [ subst c; tauto | ]). destruct H.
Qed.

(** With assertions compiled in, [init_analog_resources] returns exactly
    when each of its seven checked initialisations returns its success
    code, and it has then made all its calls, in the order of the
    source. *)
Theorem analog_init_returns_iff_all_succeed (P : Pdl) (pf : platform)
  (made : list call) :
  NDEBUG pf = false ->
  (snd (init_analog_resources pf made) = Some tt
   <-> forall c,
         In c [ Cy_SysAnalog_Init; Cy_SAR_CommonInit; Cy_SAR_Init SAR0;
                Cy_SAR_Init SAR1; Cy_CTB_OpampInit; Cy_CTDAC_Init;
                Cy_TCPWM_Counter_Init TCPWM_CNT_NUM ] ->
         returns_success pf c = true)
  /\ (snd (init_analog_resources pf made) = Some tt ->
      fst (init_analog_resources pf made) = made ++ map fst analog_script).
Proof.
  intros Hnd. rewrite init_analog_resources_script.
  assert (Hall : (forall c,
                     In c [ Cy_SysAnalog_Init; Cy_SAR_CommonInit;
                            Cy_SAR_Init SAR0; Cy_SAR_Init SAR1;
                            Cy_CTB_OpampInit; Cy_CTDAC_Init;
                            Cy_TCPWM_Counter_Init TCPWM_CNT_NUM ] ->
                     returns_success pf c = true) ->
                 perform analog_script pf made
                 = (made ++ map fst analog_script, Some tt)).
  { intros Hok. apply perform_all. intros c Hc.
    apply checked_in_analog_script in Hc. rewrite (Hok c Hc).
    reflexivity. }
  assert (Hret : snd (perform analog_script pf made) = Some tt ->
                 forall c,
                   In c [ Cy_SysAnalog_Init; Cy_SAR_CommonInit;
                          Cy_SAR_Init SAR0; Cy_SAR_Init SAR1;
                          Cy_CTB_OpampInit; Cy_CTDAC_Init;
                          Cy_TCPWM_Counter_Init TCPWM_CNT_NUM ] ->
                   returns_success pf c = true).
  { intros H c Hc. apply (perform_returns _ pf Hnd made H).
    apply <- checked_in_analog_script. exact Hc. }
  split; [ split | ].
  - exact Hret.
  - intros Hok. rewrite (Hall Hok). reflexivity.
  - intros H. rewrite (Hall (Hret H)). reflexivity.
Qed.

(** With assertions compiled in, the start-up stops at the first checked
    call that fails: the calls before it and this call have been made,
    nothing after it, and [main] does not reach its loop. *)
Theorem startup_stops_at_first_failure (P : Pdl) (pf : platform)
  (pre post : list (call * bool)) (c : call) :
  NDEBUG pf = false ->
  main_script = pre ++ (c, true) :: post ->
  (forall c', In (c', true) pre -> returns_success pf c' = true) ->
  returns_success pf c = false ->
  main_startup pf [] = (map fst pre ++ [c], None).
Proof.
  intros Hnd Hsplit Hpre Hc.
  rewrite main_startup_script, Hsplit.
  apply (perform_first_failure pre post c pf Hnd Hpre Hc []).
Qed.

(** The results of the unchecked calls, those of [Cy_SysInt_Init] among
    them, have no influence on the start-up. *)
Theorem startup_depends_on_checked_results_only (P : Pdl)
  (pf pf' : platform) (made : list call) :
  NDEBUG pf = NDEBUG pf' ->
  (forall c, In c checked_calls ->
             returns_success pf c = returns_success pf' c) ->
  main_startup pf made = main_startup pf' made.
Proof.
  intros Hnd Hsame. rewrite !main_startup_script.
  apply perform_depends; [ exact Hnd | ].
  intros c Hc. apply Hsame. apply -> checked_in_main_script. exact Hc.
Qed.

(** With assertions compiled out, every call of the start-up is made and
    the loop is entered, whatever fails. *)
Theorem startup_without_assertions (P : Pdl) (pf : platform) :
  NDEBUG pf = true ->
  main_startup pf [] = (map fst main_script, Some tt).
Proof.
  intros Hnd. rewrite main_startup_script.
  apply (perform_all main_script pf []).
  intros c _. rewrite Hnd. apply orb_true_r.
Qed.

Ltac find_earlier n fuel :=
  lazymatch fuel with
  | O => fail
  | S ?fuel' =>
      first [ exists n; split; [ lia | reflexivity ]
            | find_earlier (S n) fuel' ]
  end.

Ltac order_in_script :=
  let i := fresh "i" in
  let Hi := fresh "Hi" in
  intros i Hi;
  unfold main_script, analog_script, banner in *;
  cbn [map app fst] in *;
  do 29 (destruct i as [ | i];
         [ cbn [nth_error] in Hi;
           first [ discriminate Hi | find_earlier 0%nat 29%nat ]
         | ]);
  destruct i; discriminate Hi.

Lemma made_is_prefix (P : Pdl) (pf : platform) :
  exists k, fst (main_startup pf []) = firstn k (map fst main_script).
Proof.
  rewrite main_startup_script.
  destruct (perform_shape main_script pf []) as (k & Hk & _).
  exists k. rewrite Hk, firstn_map. reflexivity.
Qed.

(** Whatever fails and however assertions are compiled, the calls [main]
    makes before its loop come in this order: an interrupt is enabled at
    the NVIC only after its handler is installed (unit 0's handler for
    unit 0's interrupt, unit 1's for unit 1's) and its mask is set; a SAR
    is enabled only after it was initialised; interrupts are enabled
    globally only after both are enabled at the NVIC; the timer is
    triggered last, after the global enable, after its counter, both SARs
    and the CTDAC are enabled; nothing is printed before the UART
    initialisation. *)
Theorem startup_call_order (P : Pdl) (pf : platform) (u : sar_unit) :
  precedes (fst (main_startup pf []))
    (Cy_SysInt_Init (IRQ_cfg u) u) (NVIC_EnableIRQ u)
  /\ precedes (fst (main_startup pf []))
       (Cy_SAR_SetInterruptMask u CY_SAR_INTR) (NVIC_EnableIRQ u)
  /\ precedes (fst (main_startup pf [])) (Cy_SAR_Init u) (Cy_SAR_Enable u)
  /\ precedes (fst (main_startup pf [])) (NVIC_EnableIRQ u) enable_irq
  /\ precedes (fst (main_startup pf []))
       enable_irq (Cy_TCPWM_TriggerStart_Single TCPWM_CNT_NUM)
  /\ precedes (fst (main_startup pf []))
       (Cy_TCPWM_Counter_Enable TCPWM_CNT_NUM)
       (Cy_TCPWM_TriggerStart_Single TCPWM_CNT_NUM)
  /\ precedes (fst (main_startup pf []))
       (Cy_SAR_Enable u) (Cy_TCPWM_TriggerStart_Single TCPWM_CNT_NUM)
  /\ precedes (fst (main_startup pf []))
       Cy_CTDAC_Enable (Cy_TCPWM_TriggerStart_Single TCPWM_CNT_NUM)
  /\ (forall t,
        precedes (fst (main_startup pf [])) cy_retarget_io_init (Printf t)).
Proof.
  destruct (made_is_prefix P pf) as (k & ->).
  repeat split; try intros t; apply precedes_prefix; destruct u;
    order_in_script.
Qed.

(** With assertions compiled in, [main] reaches its loop exactly when
    each of the nine checked calls returns its success code; and when it
    does not, interrupts have not been enabled globally and the timer has
    been neither enabled nor triggered. *)
Theorem loop_entered_iff_startup_succeeds (P : Pdl) (pf : platform) :
  NDEBUG pf = false ->
  (snd (main_startup pf []) = Some tt
   <-> forall c, In c checked_calls -> returns_success pf c = true)
  /\ (snd (main_startup pf []) = None ->
      ~ In enable_irq (fst (main_startup pf []))
      /\ ~ In (Cy_TCPWM_Counter_Enable TCPWM_CNT_NUM)
             (fst (main_startup pf []))
      /\ ~ In (Cy_TCPWM_TriggerStart_Single TCPWM_CNT_NUM)
             (fst (main_startup pf []))).
Proof.
  intros Hnd. rewrite main_startup_script. split; [ split | ].
  - intros H c Hc. apply (perform_returns _ pf Hnd [] H).
    apply <- checked_in_main_script. exact Hc.
  - intros Hok. rewrite perform_all; [ reflexivity | ].
    intros c Hc. apply checked_in_main_script in Hc.
    rewrite (Hok c Hc). reflexivity.
  - intros Hhalt.
    destruct (perform_shape main_script pf []) as (k & Hk & Hh).
    destruct (Hh Hhalt) as (c & Hc & Hk1).
    rewrite Hk. clear Hk Hh Hhalt.
    unfold main_script, analog_script, banner in *.
    cbn [map app fst] in *.
    destruct k as [ | k]; [ lia | ]. cbn [Nat.pred] in Hc.
    do 29 (destruct k as [ | k];
           [ cbn [nth_error] in Hc;
             first [ discriminate Hc
                   | cbn [firstn map fst app In];
                     repeat split; intros Hin;
                     repeat (destruct Hin as [Hin | Hin];
                             [ discriminate Hin | ]);
                     exact Hin ]
           | ]).
    destruct k; discriminate Hc.
Qed.

Lemma analog_init_returns_iff_all_succeed_witness :
  NDEBUG all_succeed = false
  /\ snd (@init_analog_resources psoc6 all_succeed []) = Some tt
  /\ fst (@init_analog_resources psoc6 all_succeed [])
     = [] ++ map fst (@analog_script psoc6).
Proof.
  destruct (@analog_init_returns_iff_all_succeed psoc6 all_succeed []
              eq_refl) as [Hiff Hall].
  assert (H : snd (@init_analog_resources psoc6 all_succeed []) = Some tt)
    by (apply Hiff; intros c _; reflexivity).
  split; [ reflexivity | split; [ exact H | exact (Hall H) ] ].
Defined.

Lemma startup_stops_at_first_failure_witness :
  @main_startup psoc6 SAR1_init_fails []
  = (map fst (firstn 12 (@main_script psoc6)) ++ [Cy_SAR_Init SAR1], None).
Proof.
  apply (@startup_stops_at_first_failure psoc6 SAR1_init_fails
           (firstn 12 (@main_script psoc6)) (skipn 13 (@main_script psoc6))
           (Cy_SAR_Init SAR1)).
  - reflexivity.
  - reflexivity.
  - intros c' H. cbn in H.
    repeat (destruct H as [H | H];
            [ first [ discriminate H | injection H as <-; reflexivity ] | ]).
    destruct H.
  - reflexivity.
Defined.

Lemma startup_depends_on_checked_results_only_witness :
  @main_startup psoc6 all_succeed []
  = @main_startup psoc6 SysInt_init_fails [].
Proof.
  apply (@startup_depends_on_checked_results_only psoc6 all_succeed
           SysInt_init_fails []).
  - reflexivity.
  - intros c H. cbn in H.
    repeat (destruct H as [H | H]; [ subst c; reflexivity | ]).
    destruct H.
Defined.

Lemma startup_without_assertions_witness :
  @main_startup psoc6 release_build []
  = (map fst (@main_script psoc6), Some tt).
Proof.
  apply (@startup_without_assertions psoc6 release_build). reflexivity.
Defined.

Lemma loop_entered_iff_startup_succeeds_witness :
  snd (@main_startup psoc6 SAR1_init_fails []) = None
  /\ ~ In enable_irq (fst (@main_startup psoc6 SAR1_init_fails [])).
Proof.
  assert (H : snd (@main_startup psoc6 SAR1_init_fails []) = None)
    by (vm_compute; reflexivity).
  split; [ exact H | ].
  exact (proj1 (proj2 (@loop_entered_iff_startup_succeeds psoc6
                         SAR1_init_fails eq_refl) H)).
Defined.
